(** * HttpStore: the HTTP-backed store of metro-cache

    A shallow embedding of
    [packages/metro-cache/src/stores/HttpStore.js] and the properties of
    its constructor, of [get] and of [set].

    The store is glue around Node.js services ([url], [http]/[https],
    [zlib], [JSON]).  Those services are not code of the package: they
    are the fields of the class [NodeRuntime] below, and every definition
    of the store is stated for an arbitrary runtime.  What the package
    itself computes (the selection of the transport, the endpoint check,
    the request options, the hexadecimal path, the status dispatch, the
    accumulation of the decompressed text, the settling of the promise)
    is written out. *)

From Stdlib Require Import ZArith NArith List String Ascii Bool Lia.
From Stdlib Require Import Strings.Byte.
From Stdlib Require Import DecimalString DecimalPos DecimalZ.
Import ListNotations.
Local Open Scope string_scope.

(** ** JavaScript data *)

(** A [Buffer]: a sequence of octets. *)
Definition Buffer := list byte.

(** The text carried by the cache (the JSON text and the strings inside
    values) is a sequence of Unicode code points.  URL components, error
    messages and request paths are plain [string]s. *)
Definition text := list N.

Definition text_of_string (s : string) : text :=
  map N_of_ascii (list_ascii_of_string s).

(** JavaScript numbers, as far as the store meets them: integral
    values, [NaN] (what unary plus gives on a string that is no numeral)
    and [Infinity] (what it gives on a numeral beyond the range of a
    double). *)
Inductive number :=
| Num (z : Z)
| NaN
| Infinity.

Definition number_falsy (n : number) : bool :=
  match n with
  | Num z => (z =? 0)%Z
  | NaN => true
  | Infinity => false
  end.

(** The Number value for a non-negative integer: the double nearest to
    it, ties to the even significand.  An integer of at most 53 bits is
    a double; a longer one is rounded to its 53 leading bits, and is
    [Infinity] when the rounded value reaches [2 ^ 1024]. *)
Definition round_to_double (z : Z) : number :=
  let bits := (Z.log2 z + 1)%Z in
  if (bits <=? 53)%Z then Num z
  else
    let k := (bits - 53)%Z in
    let q := Z.shiftr z k in
    let r := Z.land z (Z.ones k) in
    let half := Z.shiftl 1 (k - 1) in
    let q' := if (half <? r)%Z || ((r =? half)%Z && Z.odd q)
              then (q + 1)%Z else q in
    let v := Z.shiftl q' k in
    if (2 ^ 1024 <=? v)%Z then Infinity else Num v.

(** [Number.prototype.toString] on an integral value: its decimal
    numeral. *)
Definition Z_to_string (z : Z) : string :=
  NilZero.string_of_int (Z.to_int z).

Definition all_digits (s : string) : bool :=
  forallb (fun a => (48 <=? N_of_ascii a)%N && (N_of_ascii a <=? 57)%N)
          (list_ascii_of_string s).

(** [ToNumber] on a string made of decimal digits ([url.parse] yields no
    other port): the double nearest to the integer the digits denote;
    the empty string converts to [0]. *)
Definition string_to_number (s : string) : number :=
  if all_digits s then
    match NilEmpty.uint_of_string s with
    | Some u => round_to_double (Z.of_uint u)
    | None => NaN
    end
  else NaN.

(** Unary plus on a value that is a string or [null]: [+null] is [0]. *)
Definition unary_plus (v : option string) : number :=
  match v with
  | None => Num 0
  | Some s => string_to_number s
  end.

(** Truthiness of a value that is a string or [null]. *)
Definition falsy (v : option string) : bool :=
  match v with
  | None => true
  | Some s => s =? ""
  end.

(** The values a store holds.  [VUndefined] is there because [set]
    treats it explicitly. *)
#[warnings="-register-all"]
Inductive JSValue :=
| VUndefined
| VNull
| VBool (b : bool)
| VNumber (n : number)
| VString (s : text)
| VArray (items : list JSValue)
| VObject (fields : list (text * JSValue)).

(** ** Buffers and strings *)

Definition byte_of_N (n : N) : byte :=
  match Byte.of_N (n mod 256) with
  | Some b => b
  | None => x00
  end.

(** [buf.toString('hex')]: two lowercase hexadecimal digits per octet,
    the high nibble first. *)
Definition hex_digit (n : N) : ascii :=
  nth (N.to_nat n) (list_ascii_of_string "0123456789abcdef") "0"%char.

Definition hex_of_byte (b : byte) : string :=
  String (hex_digit (Byte.to_N b / 16))
         (String (hex_digit (Byte.to_N b mod 16)) "").

Fixpoint Buffer_toString_hex (buf : Buffer) : string :=
  match buf with
  | [] => ""
  | b :: rest => hex_of_byte b ++ Buffer_toString_hex rest
  end.

(** Writing a string to a stream encodes it as UTF-8.  A value that is
    no Unicode scalar value (a lone surrogate) is written as U+FFFD. *)
Definition utf8_encode_char (c : N) : Buffer :=
  let cont (x : N) := byte_of_N (N.lor 128 (N.land x 63)) in
  if (c <? 128)%N then [byte_of_N c]
  else if (c <? 2048)%N then
    [byte_of_N (N.lor 192 (N.shiftr c 6)); cont c]
  else if ((55296 <=? c) && (c <=? 57343))%N then [xef; xbf; xbd]
  else if (c <? 65536)%N then
    [byte_of_N (N.lor 224 (N.shiftr c 12)); cont (N.shiftr c 6); cont c]
  else if (c <? 1114112)%N then
    [byte_of_N (N.lor 240 (N.shiftr c 18)); cont (N.shiftr c 12);
     cont (N.shiftr c 6); cont c]
  else [xef; xbf; xbd].

Definition utf8_encode (s : text) : Buffer :=
  flat_map utf8_encode_char s.

(** [buf.toString()]: UTF-8 decoding of the octets of this buffer alone.
    An octet that cannot start or continue a sequence, and a sequence
    cut short by the end of the buffer, decode to U+FFFD. *)
Inductive Utf8State :=
| Idle
| Partial (cp : N) (needed : nat) (lower upper : N).

Definition REPLACEMENT : N := 65533.

Definition utf8_start (n : N) : list N * Utf8State :=
  if (n <=? 127)%N then ([n], Idle)
  else if ((194 <=? n) && (n <=? 223))%N then
    ([], Partial (N.land n 31) 1 128 191)
  else if ((224 <=? n) && (n <=? 239))%N then
    ([], Partial (N.land n 15) 2
                 (if (n =? 224)%N then 160 else 128)
                 (if (n =? 237)%N then 159 else 191))
  else if ((240 <=? n) && (n <=? 244))%N then
    ([], Partial (N.land n 7) 3
                 (if (n =? 240)%N then 144 else 128)
                 (if (n =? 244)%N then 143 else 191))
  else ([REPLACEMENT], Idle).

Definition utf8_step (st : Utf8State) (b : byte) : list N * Utf8State :=
  let n := Byte.to_N b in
  match st with
  | Idle => utf8_start n
  | Partial cp needed lower upper =>
    if ((lower <=? n) && (n <=? upper))%N then
      let cp' := N.lor (N.shiftl cp 6) (N.land n 63) in
      match needed with
      | S (S k) => ([], Partial cp' (S k) 128 191)
      | _ => ([cp'], Idle)
      end
    else
      let (out, st') := utf8_start n in (REPLACEMENT :: out, st')
  end.

Fixpoint utf8_run (st : Utf8State) (buf : Buffer) : text :=
  match buf with
  | [] =>
    match st with
    | Idle => []
    | Partial _ _ _ _ => [REPLACEMENT]
    end
  | b :: rest =>
    let (out, st') := utf8_step st b in (out ++ utf8_run st' rest)%list
  end.

Definition Buffer_toString (buf : Buffer) : text := utf8_run Idle buf.

(** ** Errors *)

(** An error object created by the Node.js runtime itself ([TypeError],
    [SyntaxError], the errors of [zlib] and of sockets). *)
Record NativeError := {
  err_name : string;
  err_message : string;
  err_code : option string;
}.

Definition TypeError (message : string) : NativeError :=
  {| err_name := "TypeError"; err_message := message; err_code := None |}.

(** Modelled from the spec: the classes [HttpError] and [NetworkError]
    (the modules [./HttpError] and [./NetworkError] required by the
    store).  The spec gives them as
    [ProtocolError{message, statusCode}] and
    [TransportError{message, code}]; the constructors take their
    arguments in the order the store passes them. *)
Inductive JsError :=
| HttpError (message : string) (statusCode : Z)
| NetworkError (message : string) (code : option string)
| Native (e : NativeError).

Definition is_HttpError (e : JsError) : bool :=
  match e with
  | HttpError _ _ => true
  | _ => false
  end.

(** ** The Node.js services the store calls *)

(** The fields of the object returned by [url.parse] that the store
    reads; [None] is [null]. *)
Record Url := {
  protocol : option string;
  hostname : option string;
  pathname : option string;
  port : option string;
}.

Class NodeRuntime := {
  (** [url.parse]; [inl] is a thrown error. *)
  url_parse : string -> NativeError + Url;
  (** [JSON.stringify]; [None] is [undefined]. *)
  JSON_stringify : JSValue -> option text;
  (** [JSON.parse]; [inl] is the thrown [SyntaxError]. *)
  JSON_parse : text -> NativeError + JSValue;
  (** What a [zlib.createGzip({level})] stream writes for a whole input. *)
  zlib_gzip : Z -> Buffer -> Buffer;
  (** What a [zlib.createGunzip()] stream yields for a whole input. *)
  zlib_gunzip : Buffer -> NativeError + Buffer;
}.

(** ** The store *)

Inductive Module := http | https.

Inductive Family := IPv4 | IPv6.

Record Options := {
  endpoint : string;
  family : option Family;
  timeout : option number;
}.

Record ZlibOptions := { level : Z }.

Definition ZLIB_OPTIONS : ZlibOptions := {| level := 9 |}.

(** zlib's [Z_BEST_COMPRESSION]. *)
Definition Z_BEST_COMPRESSION : Z := 9.

Record AgentConfig := {
  agent_family : option Family;
  keepAlive : bool;
  keepAliveMsecs : number;
  maxSockets : Z;
  maxFreeSockets : Z;
}.

(** [new module.Agent(config)]. *)
Record Agent := {
  agent_module : Module;
  agent_config : AgentConfig;
}.

Record HttpStore := {
  _module : Module;
  _timeout : number;
  _host : string;
  _port : number;
  _path : string;
  _getAgent : Agent;
  _setAgent : Agent;
}.

(** [options.timeout || 5000] *)
Definition timeout_or_default (t : option number) : number :=
  match t with
  | Some n => if number_falsy n then Num 5000 else n
  | None => Num 5000
  end.

(** *** Requests, responses and promises *)

Record RequestOptions := {
  opt_agent : Agent;
  opt_host : string;
  opt_method : string;
  opt_path : string;
  opt_port : number;
  opt_timeout : number;
}.

(** A request handed to the transport: the module whose [request] is
    called, the options, and the octets written to the request before it
    is ended. *)
Record ClientRequest := {
  req_module : Module;
  req_options : RequestOptions;
  req_body : Buffer;
}.

(** What the runtime delivers to the listeners of one request.  An
    event for which the store has registered no listener leaves the
    promise and the accumulated text as they are. *)
Inductive Event :=
| ReqError (err : NativeError)    (* 'error' on the request *)
| Response (statusCode : Z)       (* the response callback *)
| ResData (chunk : Buffer)        (* 'data' on the response *)
| ResError (err : NativeError)    (* 'error' on the response *)
| ResEnd                          (* 'end' on the response *)
| GunzipData (chunk : Buffer)     (* 'data' on the gunzip stream *)
| GunzipError (err : NativeError) (* 'error' on the gunzip stream *)
| GunzipEnd.                      (* 'end' on the gunzip stream *)

(** A promise settles once: later calls of [resolve] and [reject] have
    no effect. *)
Inductive Promise (A : Type) :=
| Pending
| Fulfilled (value : A)
| Rejected (reason : JsError).
Arguments Pending {A}.
Arguments Fulfilled {A} value.
Arguments Rejected {A} reason.

Definition resolve {A} (p : Promise A) (value : A) : Promise A :=
  match p with
  | Pending => Fulfilled value
  | _ => p
  end.

Definition reject {A} (p : Promise A) (reason : JsError) : Promise A :=
  match p with
  | Pending => Rejected reason
  | _ => p
  end.

(** What the store did with the response of a request: nothing yet (no
    response), [res.resume()] (the body flows and is discarded), or
    [res.pipe(zlib.createGunzip())] with the listeners of [get] on the
    gunzip stream. *)
Inductive ResMode := NoResponse | Resumed | Piped.

Record GetState := {
  get_promise : Promise JSValue;
  get_data : text;
  get_res : ResMode;
}.

Record SetState := {
  set_promise : Promise unit;
  set_res : ResMode;
}.

Section Store.

Context {runtime : NodeRuntime}.

(** The constructor; [inl] is the thrown error. *)
Definition constructor (options : Options) : NativeError + HttpStore :=
  match url_parse (endpoint options) with
  | inl thrown => inl thrown
  | inr uri =>
    let module :=
      match protocol uri with
      | Some p => if p =? "http:" then http else https
      | None => https
      end in
    let agentConfig := {|
      agent_family := family options;
      keepAlive := true;
      keepAliveMsecs := timeout_or_default (timeout options);
      maxSockets := 64;
      maxFreeSockets := 64;
    |} in
    if falsy (hostname uri) || falsy (pathname uri) then
      inl (TypeError ("Invalid endpoint: " ++ endpoint options))
    else
      match hostname uri, pathname uri with
      | Some host, Some path =>
        inr {|
          _module := module;
          _timeout := timeout_or_default (timeout options);
          _host := host;
          _path := path;
          _port := unary_plus (port uri);
          _getAgent := {| agent_module := module; agent_config := agentConfig |};
          _setAgent := {| agent_module := module; agent_config := agentConfig |};
        |}
      | _, _ =>
        (* not reached: both are non-empty strings here *)
        inl (TypeError ("Invalid endpoint: " ++ endpoint options))
      end
  end.

(** The options object handed to [module.request]. *)
Definition get_options (this : HttpStore) (key : Buffer) : RequestOptions :=
  {| opt_agent := _getAgent this;
     opt_host := _host this;
     opt_method := "GET";
     opt_path := _path this ++ "/" ++ Buffer_toString_hex key;
     opt_port := _port this;
     opt_timeout := _timeout this |}.

Definition set_options (this : HttpStore) (key : Buffer) : RequestOptions :=
  {| opt_agent := _setAgent this;
     opt_host := _host this;
     opt_method := "PUT";
     opt_path := _path this ++ "/" ++ Buffer_toString_hex key;
     opt_port := _port this;
     opt_timeout := _timeout this |}.

(** [JSON.stringify(value) || 'null'] *)
Definition stringify_or_null (value : JSValue) : text :=
  match JSON_stringify value with
  | Some [] => text_of_string "null"
  | Some t => t
  | None => text_of_string "null"
  end.

(** The request [get] issues: [req.end()] is called with no body. *)
Definition get_request (this : HttpStore) (key : Buffer) : ClientRequest :=
  {| req_module := _module this;
     req_options := get_options this key;
     req_body := [] |}.

(** The request [set] issues: the gzip stream is piped into the request
    and ended with the serialized value. *)
Definition set_request (this : HttpStore) (key : Buffer) (value : JSValue)
  : ClientRequest :=
  {| req_module := _module this;
     req_options := set_options this key;
     req_body := zlib_gzip (level ZLIB_OPTIONS)
                           (utf8_encode (stringify_or_null value)) |}.

(** *** The handlers of [get] *)

Definition get_start : GetState :=
  {| get_promise := Pending; get_data := []; get_res := NoResponse |}.

Definition get_handle (st : GetState) (ev : Event) : GetState :=
  match ev, get_res st with
  | ReqError err, _ =>
    (* req.on('error', err => reject(new NetworkError(...))) *)
    {| get_promise :=
         reject (get_promise st)
                (NetworkError (err_message err) (err_code err));
       get_data := get_data st;
       get_res := get_res st |}
  | Response code, NoResponse =>
    (* the callback of module.request; [let data = ''] *)
    if (code =? 404)%Z then
      {| get_promise := resolve (get_promise st) VNull;
         get_data := [];
         get_res := Resumed |}
    else if negb (code =? 200)%Z then
      {| get_promise :=
           reject (get_promise st)
                  (HttpError ("HTTP error: " ++ Z_to_string code) code);
         get_data := [];
         get_res := Resumed |}
    else
      {| get_promise := get_promise st;
         get_data := [];
         get_res := Piped |}
  | GunzipData chunk, Piped =>
    (* data += chunk.toString() *)
    {| get_promise := get_promise st;
       get_data := (get_data st ++ Buffer_toString chunk)%list;
       get_res := Piped |}
  | GunzipError err, Piped
  | ResError err, Piped =>
    (* gunzipped.on('error', ...), to which the store forwards the
       'error' of the response *)
    {| get_promise := reject (get_promise st) (Native err);
       get_data := get_data st;
       get_res := Piped |}
  | GunzipEnd, Piped =>
    (* try { resolve(JSON.parse(data)) } catch (err) { reject(err) } *)
    {| get_promise :=
         match JSON_parse (get_data st) with
         | inr value => resolve (get_promise st) value
         | inl err => reject (get_promise st) (Native err)
         end;
       get_data := get_data st;
       get_res := Piped |}
  | _, _ => st
  end.

Definition get_run (events : list Event) : GetState :=
  fold_left get_handle events get_start.

(** [get(key)]: the request sent, and the promise once the runtime has
    delivered [events]. *)
Definition get (this : HttpStore) (key : Buffer) (events : list Event)
  : ClientRequest * Promise JSValue :=
  (get_request this key, get_promise (get_run events)).

(** *** The handlers of [set]

    [set] listens to ['error'] and ['end'] of the response and resumes
    it; it registers no listener on the request. *)

Definition set_start : SetState :=
  {| set_promise := Pending; set_res := NoResponse |}.

Definition set_handle (st : SetState) (ev : Event) : SetState :=
  match ev, set_res st with
  | Response _, NoResponse =>
    {| set_promise := set_promise st; set_res := Resumed |}
  | ResError err, Resumed =>
    {| set_promise := reject (set_promise st) (Native err);
       set_res := Resumed |}
  | ResEnd, Resumed =>
    {| set_promise := resolve (set_promise st) tt;
       set_res := Resumed |}
  | _, _ => st
  end.

Definition set_run (events : list Event) : SetState :=
  fold_left set_handle events set_start.

(** [set(key, value)] *)
Definition set (this : HttpStore) (key : Buffer) (value : JSValue)
  (events : list Event) : ClientRequest * Promise unit :=
  (set_request this key value, set_promise (set_run events)).

(** [clear()] is not implemented: it does nothing. *)
Definition clear (this : HttpStore) : unit := tt.

End Store.

(** ** What the gunzip stream emits for a response body

    The stream hands the decompressed octets to its ['data'] listeners in
    chunks, whose boundaries are its own (they follow the arrival of the
    compressed input and the size of its output buffer), and then emits
    ['end']; on corrupt input it emits ['error'] after the chunks it could
    produce. *)
Inductive gunzip_events {runtime : NodeRuntime} (body : Buffer)
  : list Event -> Prop :=
| gunzip_events_end (plain : Buffer) (chunks : list Buffer) :
    zlib_gunzip body = inr plain ->
    List.concat chunks = plain ->
    gunzip_events body (map GunzipData chunks ++ [GunzipEnd])%list
| gunzip_events_error (err : NativeError) (chunks : list Buffer) :
    zlib_gunzip body = inl err ->
    gunzip_events body (map GunzipData chunks ++ [GunzipError err])%list.

(** ** The behaviour of the runtime the store relies on *)

(** The characters [QuoteJSONString] copies unchanged: Unicode scalar
    values other than the quotation mark, the reverse solidus and the
    control characters. *)
Definition plain_char (c : N) : bool :=
  ((32 <=? c) && negb (c =? 34) && negb (c =? 92)
   && negb ((55296 <=? c) && (c <=? 57343)) && (c <? 1114112))%N.

Definition quote (s : text) : text := (34%N :: s ++ [34%N])%list.

Class RuntimeLaws (runtime : NodeRuntime) : Prop := {
  (** gunzip inverts gzip, at every level *)
  gunzip_gzip : forall lvl plain,
    zlib_gunzip (zlib_gzip lvl plain) = inr plain;
  (** [JSON.stringify] of a string of plain characters *)
  stringify_plain : forall s,
    forallb plain_char s = true ->
    JSON_stringify (VString s) = Some (quote s);
  (** [JSON.parse] of a string literal of plain characters *)
  parse_plain : forall s,
    forallb plain_char s = true ->
    JSON_parse (quote s) = inr (VString s);
}.

(** ** A small runtime

    An executable [NodeRuntime] on which the store can be run: a parser
    for endpoints of the shape [scheme://host[:port][/path]], JSON over
    [JSValue] (numbers without fraction or exponent), and a framing that
    stands for gzip (a two-octet magic number before the octets
    themselves). *)

Definition sample_url_parse (s : string) : NativeError + Url :=
  match index 0 "://" s with
  | None =>
    inr {| protocol := None; hostname := None;
           pathname := if s =? "" then None else Some s; port := None |}
  | Some i =>
    let rest := substring (i + 3) (String.length s - (i + 3)) s in
    let (authority, path) :=
      match index 0 "/" rest with
      | None => (rest, "/")
      | Some j => (substring 0 j rest, substring j (String.length rest - j) rest)
      end in
    let (host, prt) :=
      match index 0 ":" authority with
      | None => (authority, None)
      | Some k =>
        (substring 0 k authority,
         Some (substring (k + 1) (String.length authority - (k + 1)) authority))
      end in
    inr {| protocol := Some (substring 0 (i + 1) s);
           hostname := Some host;
           pathname := Some path;
           port := prt |}
  end.

Definition sample_hex4 (c : N) : text :=
  map (fun d => N_of_ascii (hex_digit d))
      [(c / 4096) mod 16; (c / 256) mod 16; (c / 16) mod 16; c mod 16]%N.

Definition sample_escape (c : N) : text :=
  (if c =? 8 then [92; 98]
   else if c =? 9 then [92; 116]
   else if c =? 10 then [92; 110]
   else if c =? 12 then [92; 102]
   else if c =? 13 then [92; 114]
   else if c =? 34 then [92; 34]
   else if c =? 92 then [92; 92]
   else if plain_char c then [c]
   else 92 :: 117 :: sample_hex4 c)%N.

Definition sample_quote (s : text) : text :=
  (34%N :: flat_map sample_escape s ++ [34%N])%list.

Fixpoint sample_join (parts : list text) : text :=
  match parts with
  | [] => []
  | [p] => p
  | p :: rest => (p ++ 44%N :: sample_join rest)%list
  end.

Fixpoint sample_stringify (v : JSValue) : option text :=
  match v with
  | VUndefined => None
  | VNull => Some (text_of_string "null")
  | VBool true => Some (text_of_string "true")
  | VBool false => Some (text_of_string "false")
  | VNumber (Num z) => Some (text_of_string (Z_to_string z))
  | VNumber NaN => Some (text_of_string "null")
  | VNumber Infinity => Some (text_of_string "null")
  | VString s => Some (sample_quote s)
  | VArray items =>
    let item x :=
      match sample_stringify x with
      | Some t => t
      | None => text_of_string "null"
      end in
    Some (91%N :: sample_join (map item items) ++ [93%N])%list
  | VObject fields =>
    let field (kv : text * JSValue) :=
      let (k, x) := kv in
      match sample_stringify x with
      | Some t => [(sample_quote k ++ 58%N :: t)%list]
      | None => []
      end in
    Some (123%N :: sample_join (flat_map field fields) ++ [125%N])%list
  end.

Definition sample_is_ws (c : N) : bool :=
  ((c =? 32) || (c =? 9) || (c =? 10) || (c =? 13))%N.

Fixpoint sample_skip_ws (t : text) : text :=
  match t with
  | c :: r => if sample_is_ws c then sample_skip_ws r else t
  | [] => []
  end.

Definition sample_hex_value (c : N) : option N :=
  if ((48 <=? c) && (c <=? 57))%N then Some (c - 48)%N
  else if ((97 <=? c) && (c <=? 102))%N then Some (c - 87)%N
  else if ((65 <=? c) && (c <=? 70))%N then Some (c - 55)%N
  else None.

Definition sample_unescape (c : N) : option N :=
  (if c =? 98 then Some 8
   else if c =? 116 then Some 9
   else if c =? 110 then Some 10
   else if c =? 102 then Some 12
   else if c =? 114 then Some 13
   else if (c =? 34) || (c =? 47) || (c =? 92) then Some c
   else None)%N.

(** The characters of a string literal, after its opening quotation
    mark: the string and the text after the closing quotation mark. *)
Fixpoint sample_parse_chars (t : text) : option (text * text) :=
  let cons_to c r :=
    match r with
    | Some (s, rest) => Some (c :: s, rest)
    | None => None
    end in
  match t with
  | [] => None
  | c :: r =>
    if (c =? 34)%N then Some ([], r)
    else if (c =? 92)%N then
      match r with
      | e :: r' =>
        if (e =? 117)%N then
          match r' with
          | h1 :: h2 :: h3 :: h4 :: r'' =>
            match sample_hex_value h1, sample_hex_value h2,
                  sample_hex_value h3, sample_hex_value h4 with
            | Some a, Some b, Some c', Some d =>
              cons_to (a * 4096 + b * 256 + c' * 16 + d)%N
                      (sample_parse_chars r'')
            | _, _, _, _ => None
            end
          | _ => None
          end
        else
          match sample_unescape e with
          | Some c' => cons_to c' (sample_parse_chars r')
          | None => None
          end
      | [] => None
      end
    else if (c <? 32)%N then None
    else cons_to c (sample_parse_chars r)
  end.

Fixpoint sample_take_digits (t : text) : list N * text :=
  match t with
  | c :: r =>
    if ((48 <=? c) && (c <=? 57))%N then
      let (ds, rest) := sample_take_digits r in ((c - 48)%N :: ds, rest)
    else ([], t)
  | [] => ([], [])
  end.

Definition sample_digits_value (ds : list N) : Z :=
  fold_left (fun acc d => (acc * 10 + Z.of_N d)%Z) ds 0%Z.

(** An integer numeral; a fraction or an exponent is outside this
    runtime and is refused. *)
Definition sample_parse_number (t : text) : option (JSValue * text) :=
  let unsigned (t : text) : option (Z * text) :=
    match sample_take_digits t with
    | ([], _) => None
    | (0%N :: _ :: _, _) => None
    | (ds, rest) =>
      match rest with
      | c :: _ =>
        if ((c =? 46) || (c =? 101) || (c =? 69))%N then None
        else Some (sample_digits_value ds, rest)
      | [] => Some (sample_digits_value ds, rest)
      end
    end in
  match t with
  | 45%N :: r =>
    match unsigned r with
    | Some (z, rest) => Some (VNumber (Num (- z)), rest)
    | None => None
    end
  | _ =>
    match unsigned t with
    | Some (z, rest) => Some (VNumber (Num z), rest)
    | None => None
    end
  end.

Fixpoint sample_strip_prefix (p t : text) : option text :=
  match p, t with
  | [], _ => Some t
  | a :: p', b :: t' => if (a =? b)%N then sample_strip_prefix p' t' else None
  | _ :: _, [] => None
  end.

Fixpoint sample_parse_value (fuel : nat) (t : text) {struct fuel}
  : option (JSValue * text) :=
  match fuel with
  | O => None
  | S n =>
    match sample_skip_ws t with
    | [] => None
    | c :: r =>
      if (c =? 34)%N then
        match sample_parse_chars r with
        | Some (s, rest) => Some (VString s, rest)
        | None => None
        end
      else if (c =? 91)%N then
        match sample_skip_ws r with
        | c' :: r' =>
          if (c' =? 93)%N then Some (VArray [], r')
          else
            match sample_parse_items n r with
            | Some (vs, rest) => Some (VArray vs, rest)
            | None => None
            end
        | [] => None
        end
      else if (c =? 123)%N then
        match sample_skip_ws r with
        | c' :: r' =>
          if (c' =? 125)%N then Some (VObject [], r')
          else
            match sample_parse_fields n r with
            | Some (fs, rest) => Some (VObject fs, rest)
            | None => None
            end
        | [] => None
        end
      else
        match sample_strip_prefix (text_of_string "null") (c :: r),
              sample_strip_prefix (text_of_string "true") (c :: r),
              sample_strip_prefix (text_of_string "false") (c :: r) with
        | Some rest, _, _ => Some (VNull, rest)
        | _, Some rest, _ => Some (VBool true, rest)
        | _, _, Some rest => Some (VBool false, rest)
        | _, _, _ => sample_parse_number (c :: r)
        end
    end
  end
with sample_parse_items (fuel : nat) (t : text) {struct fuel}
  : option (list JSValue * text) :=
  match fuel with
  | O => None
  | S n =>
    match sample_parse_value n t with
    | Some (v, rest) =>
      match sample_skip_ws rest with
      | c :: r =>
        if (c =? 44)%N then
          match sample_parse_items n r with
          | Some (vs, rest') => Some (v :: vs, rest')
          | None => None
          end
        else if (c =? 93)%N then Some ([v], r)
        else None
      | [] => None
      end
    | None => None
    end
  end
with sample_parse_fields (fuel : nat) (t : text) {struct fuel}
  : option (list (text * JSValue) * text) :=
  match fuel with
  | O => None
  | S n =>
    match sample_skip_ws t with
    | q :: r =>
      if (q =? 34)%N then
        match sample_parse_chars r with
        | Some (k, rest) =>
          match sample_skip_ws rest with
          | colon :: r' =>
            if (colon =? 58)%N then
              match sample_parse_value n r' with
              | Some (v, rest') =>
                match sample_skip_ws rest' with
                | c :: r'' =>
                  if (c =? 44)%N then
                    match sample_parse_fields n r'' with
                    | Some (fs, rest'') => Some ((k, v) :: fs, rest'')
                    | None => None
                    end
                  else if (c =? 125)%N then Some ([(k, v)], r'')
                  else None
                | [] => None
                end
              | None => None
              end
            else None
          | [] => None
          end
        | None => None
        end
      else None
    | [] => None
    end
  end.

Definition SyntaxError (message : string) : NativeError :=
  {| err_name := "SyntaxError"; err_message := message; err_code := None |}.

Definition sample_parse (t : text) : NativeError + JSValue :=
  match sample_parse_value (S (List.length t)) t with
  | Some (v, rest) =>
    match sample_skip_ws rest with
    | [] => inr v
    | _ :: _ => inl (SyntaxError "Unexpected token in JSON")
    end
  | None => inl (SyntaxError "Unexpected token in JSON")
  end.

Definition sample_gzip (lvl : Z) (plain : Buffer) : Buffer :=
  x1f :: x8b :: plain.

Definition sample_gunzip (body : Buffer) : NativeError + Buffer :=
  match body with
  | x1f :: x8b :: plain => inr plain
  | _ => inl {| err_name := "Error";
                err_message := "incorrect header check";
                err_code := Some "Z_DATA_ERROR" |}
  end.

Definition sample_runtime : NodeRuntime := {|
  url_parse := sample_url_parse;
  JSON_stringify := sample_stringify;
  JSON_parse := sample_parse;
  zlib_gzip := sample_gzip;
  zlib_gunzip := sample_gunzip;
|}.

Definition sample_options : Options :=
  {| endpoint := "http://localhost:8080/cache";
     family := None;
     timeout := None |}.

(** The store built from [sample_options] on the small runtime. *)
Definition sample_store : HttpStore :=
  let config := {| agent_family := None; keepAlive := true;
                   keepAliveMsecs := Num 5000;
                   maxSockets := 64; maxFreeSockets := 64 |} in
  {| _module := http;
     _timeout := Num 5000;
     _host := "localhost";
     _port := Num 8080;
     _path := "/cache";
     _getAgent := {| agent_module := http; agent_config := config |};
     _setAgent := {| agent_module := http; agent_config := config |} |}.

(** An endpoint with neither scheme nor host, and one without a port. *)
Definition sample_options_no_host : Options :=
  {| endpoint := "localhost"; family := None; timeout := None |}.

Definition sample_options_no_port : Options :=
  {| endpoint := "https://cache.example.com/v1/store";
     family := Some IPv4;
     timeout := Some (Num 3000) |}.

(** An endpoint whose scheme is neither [http:] nor [https:]. *)
Definition sample_options_ftp : Options :=
  {| endpoint := "ftp://files.example.com/cache";
     family := None;
     timeout := None |}.

(** ** Reading hexadecimal back

    The reference for "the lowercase hexadecimal encoding": a string is
    the encoding of [buf] when reading its characters two by two, as
    digits among [0-9a-f], gives back the octets of [buf]. *)
Definition hex_value (a : ascii) : option N :=
  let n := N_of_ascii a in
  if ((48 <=? n) && (n <=? 57))%N then Some (n - 48)%N
  else if ((97 <=? n) && (n <=? 102))%N then Some (n - 87)%N
  else None.

Definition is_lower_hex (a : ascii) : bool :=
  match hex_value a with
  | Some _ => true
  | None => false
  end.

Fixpoint hex_decode (s : string) : option Buffer :=
  match s with
  | "" => Some []
  | String hi (String lo rest) =>
    match hex_value hi, hex_value lo, hex_decode rest with
    | Some h, Some l, Some buf => Some (byte_of_N (16 * h + l) :: buf)
    | _, _, _ => None
    end
  | String _ "" => None
  end.

(** The Unicode scalar values: the code points outside the surrogate
    range. *)
Definition is_scalar (c : N) : bool :=
  ((c <? 1114112) && negb ((55296 <=? c) && (c <=? 57343)))%N.

Definition is_empty (t : text) : bool :=
  match t with
  | [] => true
  | _ :: _ => false
  end.

(** ** How a promise of the store came to be settled *)

Definition is_response (ev : Event) : bool :=
  match ev with
  | Response _ => true
  | _ => false
  end.

(** The three ways in which [get] rejects, read on the events
    delivered: an ['error'] of the request, a response whose status is
    neither 200 nor 404, or, after a response of status 200, an error
    emitted by the streams or the error [JSON.parse] threw, at an end
    of the gunzip stream, on the text accumulated until then. *)
Definition get_rejection_cause {runtime : NodeRuntime}
  (events : list Event) (reason : JsError) : Prop :=
  (exists err,
      reason = NetworkError (err_message err) (err_code err)
      /\ In (ReqError err) events)
  \/ (exists code,
         reason = HttpError ("HTTP error: " ++ Z_to_string code) code
         /\ In (Response code) events
         /\ code <> 200%Z /\ code <> 404%Z)
  \/ (exists err,
         reason = Native err
         /\ In (Response 200) events
         /\ (In (GunzipError err) events \/ In (ResError err) events
             \/ exists before after,
                  events = (before ++ GunzipEnd :: after)%list
                  /\ JSON_parse (get_data (get_run before)) = inl err)).

(** The two ways in which [get] is fulfilled: with [null] on a response
    of status 404, or, after a response of status 200 and the end of the
    gunzip stream, with what [JSON.parse] returned. *)
Definition get_fulfilment_cause {runtime : NodeRuntime}
  (events : list Event) (value : JSValue) : Prop :=
  (value = VNull /\ In (Response 404) events)
  \/ (In (Response 200) events /\ In GunzipEnd events
      /\ exists t, JSON_parse t = inr value).

(** What holds of the state of [get] after the events [seen]. *)
Definition get_invariant {runtime : NodeRuntime}
  (seen : list Event) (st : GetState) : Prop :=
  st = get_run seen
  /\ (get_res st = Piped -> In (Response 200) seen)
  /\ (forall reason,
         get_promise st = Rejected reason -> get_rejection_cause seen reason)
  /\ (forall value,
         get_promise st = Fulfilled value -> get_fulfilment_cause seen value).

(** What holds of the state of [set] after the events [seen]. *)
Definition set_invariant (seen : list Event) (st : SetState) : Prop :=
  (set_res st = Resumed -> exists code, In (Response code) seen)
  /\ (set_promise st <> Pending -> set_res st = Resumed)
  /\ (set_promise st = Fulfilled tt -> In ResEnd seen).

(** Values and chunks on which the further properties are run. *)
Definition sample_json_value : JSValue :=
  VObject [([107%N],
            VArray [VNumber (Num 12); VString [97%N; 98%N]; VBool true; VNull])].

(** The 25 octets of the JSON text of [sample_json_value], cut between
    the two digits of the number. *)
Definition sample_json_chunks : list Buffer :=
  [[x7b; x22; x6b; x22; x3a; x5b; x31];
   [x32; x2c; x22; x61; x62; x22; x2c; x74; x72; x75; x65; x2c;
    x6e; x75; x6c; x6c; x5d; x7d]].

(** A string of two characters outside ASCII (U+00E9 and U+20AC). *)
Definition sample_text_value : JSValue := VString [233%N; 8364%N].

(** Text made of ASCII characters only. *)
Definition is_ascii (c : N) : bool := (c <? 128)%N.

(** * Properties *)

Section Properties.

Context {runtime : NodeRuntime}.

(** ** The constructor *)

Lemma falsy_false (v : option string) :
  falsy v = false -> exists s, v = Some s /\ s <> "".
Proof.
  destruct v as [s|]; simpl; [|discriminate].
  intros H. exists s. split; [reflexivity|].
  intros ->. discriminate.
Qed.

(** What a successful construction stored. *)
Lemma constructor_inr (options : Options) (this : HttpStore) :
  constructor options = inr this ->
  exists uri host path,
    url_parse (endpoint options) = inr uri
    /\ hostname uri = Some host /\ host <> ""
    /\ pathname uri = Some path /\ path <> ""
    /\ _host this = host
    /\ _path this = path
    /\ _port this = unary_plus (port uri)
    /\ _module this =
       match protocol uri with
       | Some p => if p =? "http:" then http else https
       | None => https
       end
    /\ agent_module (_getAgent this) = _module this
    /\ agent_module (_setAgent this) = _module this.
Proof.
  unfold constructor.
  destruct (url_parse (endpoint options)) as [thrown|uri]; [discriminate|].
  destruct (falsy (hostname uri)) eqn:Hh; [discriminate|].
  destruct (falsy (pathname uri)) eqn:Hp; [discriminate|].
  destruct (falsy_false _ Hh) as (host & Eh & Nh).
  destruct (falsy_false _ Hp) as (path & Ep & Np).
  rewrite Eh, Ep. simpl. intros [= <-].
  exists uri, host, path. simpl. repeat split; auto.
Qed.

(** C6: every endpoint that parses with a hostname and a pathname is
    accepted, and the store constructed for it uses the plain-HTTP
    module exactly when the protocol of the parsed endpoint is the string
    [http:]; for any other protocol, and when the endpoint has none, it
    uses the HTTPS module.  The two agents are created from the selected
    module. *)
Theorem constructor_selects_transport (options : Options) (uri : Url) :
  url_parse (endpoint options) = inr uri ->
  falsy (hostname uri) = false ->
  falsy (pathname uri) = false ->
  exists this,
    constructor options = inr this
    /\ (_module this = http <-> protocol uri = Some "http:")
    /\ (protocol uri <> Some "http:" -> _module this = https)
    /\ agent_module (_getAgent this) = _module this
    /\ agent_module (_setAgent this) = _module this.
Proof.
  intros Hu Hh Hp.
  assert (Hc : exists this, constructor options = inr this).
  { unfold constructor. rewrite Hu, Hh, Hp.
    destruct (falsy_false _ Hh) as (host & -> & _).
    destruct (falsy_false _ Hp) as (path & -> & _).
    cbn. eexists. reflexivity. }
  destruct Hc as (this & H). exists this. split; [exact H|].
  destruct (constructor_inr _ _ H)
    as (uri' & host & path & Hu' & _ & _ & _ & _ & _ & _ & _ & Hm & Hg & Hs).
  rewrite Hu in Hu'. injection Hu' as <-.
  repeat split; auto.
  - rewrite Hm. destruct (protocol uri) as [p|]; [|discriminate].
    destruct (String.eqb_spec p "http:"); [congruence|discriminate].
  - rewrite Hm. intros ->. reflexivity.
  - rewrite Hm. destruct (protocol uri) as [p|]; [|reflexivity].
    destruct (String.eqb_spec p "http:"); [congruence|reflexivity].
Qed.

(** C7: when the parsed endpoint has no hostname or no pathname ([null]
    or the empty string), the constructor throws a [TypeError] naming the
    endpoint; when it has both, the constructor returns a store holding
    them. *)
Theorem constructor_checks_endpoint (options : Options) (uri : Url) :
  url_parse (endpoint options) = inr uri ->
  (falsy (hostname uri) = true \/ falsy (pathname uri) = true ->
   constructor options
   = inl (TypeError ("Invalid endpoint: " ++ endpoint options)))
  /\ (falsy (hostname uri) = false -> falsy (pathname uri) = false ->
      exists this,
        constructor options = inr this
        /\ hostname uri = Some (_host this)
        /\ pathname uri = Some (_path this)).
Proof.
  intros Hu. unfold constructor. rewrite Hu. split.
  - intros [H|H]; rewrite H; [reflexivity|].
    rewrite orb_true_r. reflexivity.
  - intros Hh Hp. rewrite Hh, Hp.
    destruct (falsy_false _ Hh) as (host & Eh & _).
    destruct (falsy_false _ Hp) as (path & Ep & _).
    rewrite Eh, Ep. simpl. eexists. split; [reflexivity|]. simpl. auto.
Qed.

(** C10: when the parsed endpoint has no port, the store's port is the
    number 0, which is neither 80 nor 443, and the options of every
    request of [get] and of [set] carry the store's port. *)
Theorem absent_port_is_zero (options : Options) (uri : Url) (this : HttpStore)
  (key : Buffer) (value : JSValue) :
  url_parse (endpoint options) = inr uri ->
  port uri = None ->
  constructor options = inr this ->
  _port this = Num 0
  /\ _port this <> Num 80 /\ _port this <> Num 443
  /\ opt_port (req_options (get_request this key)) = _port this
  /\ opt_port (req_options (set_request this key value)) = _port this.
Proof.
  intros Hu Hp H.
  destruct (constructor_inr _ _ H)
    as (uri' & host & path & Hu' & _ & _ & _ & _ & _ & _ & Hport & _).
  rewrite Hu in Hu'. injection Hu' as <-.
  rewrite Hp in Hport. simpl in Hport. rewrite Hport.
  repeat split; try discriminate; simpl; auto.
Qed.

(** ** The request path *)

Lemma hex_of_byte_decode (b : byte) (rest : string) :
  hex_decode (hex_of_byte b ++ rest)
  = match hex_decode rest with
    | Some buf => Some (b :: buf)
    | None => None
    end.
Proof.
  destruct b; cbn [hex_of_byte append]; unfold hex_decode at 1;
    fold hex_decode; vm_compute hex_value; destruct (hex_decode rest);
    reflexivity.
Qed.

Lemma hex_decode_encode (buf : Buffer) :
  hex_decode (Buffer_toString_hex buf) = Some buf.
Proof.
  induction buf as [|b rest IH]; [reflexivity|].
  cbn [Buffer_toString_hex]. rewrite hex_of_byte_decode, IH. reflexivity.
Qed.

(** Distinct keys are stored under distinct paths. *)
Lemma Buffer_toString_hex_inj (k1 k2 : Buffer) :
  Buffer_toString_hex k1 = Buffer_toString_hex k2 -> k1 = k2.
Proof.
  intros H. pose proof (hex_decode_encode k1) as H1.
  rewrite H, hex_decode_encode in H1. congruence.
Qed.

Lemma hex_length (buf : Buffer) :
  String.length (Buffer_toString_hex buf) = 2 * List.length buf.
Proof.
  induction buf as [|b rest IH]; simpl; [reflexivity|].
  rewrite IH. lia.
Qed.

Lemma hex_lowercase (buf : Buffer) :
  forallb is_lower_hex (list_ascii_of_string (Buffer_toString_hex buf)) = true.
Proof.
  induction buf as [|b rest IH]; [reflexivity|].
  cbn [Buffer_toString_hex].
  replace (list_ascii_of_string (hex_of_byte b ++ Buffer_toString_hex rest))
    with (list_ascii_of_string (hex_of_byte b)
          ++ list_ascii_of_string (Buffer_toString_hex rest))%list
    by (destruct b; reflexivity).
  rewrite forallb_app, IH, andb_true_r. destruct b; reflexivity.
Qed.

(** C9: [get] and [set] both request the path made of the store's base
    path, a slash, and the encoding of the key by [toString('hex')]; that
    encoding is the lowercase hexadecimal one (two digits among [0-9a-f]
    per octet, from which the key is read back), so the path is a
    function of the base path and of the octets of the key alone, the
    same for both operations. *)
Theorem request_path_is_hex (this : HttpStore) (key : Buffer) (value : JSValue) :
  opt_path (req_options (get_request this key))
  = _path this ++ "/" ++ Buffer_toString_hex key
  /\ opt_path (req_options (set_request this key value))
     = _path this ++ "/" ++ Buffer_toString_hex key
  /\ forallb is_lower_hex (list_ascii_of_string (Buffer_toString_hex key))
     = true
  /\ hex_decode (Buffer_toString_hex key) = Some key
  /\ String.length (Buffer_toString_hex key) = 2 * List.length key.
Proof.
  repeat split; auto using hex_lowercase, hex_decode_encode, hex_length.
Qed.

(** ** The body of [set] *)

(** C8: the octets [set] writes to its request are the gzip output, at
    level 9 (zlib's best compression), for the UTF-8 encoding of the
    JSON text of the value, or of the text [null] when [JSON.stringify]
    gives [undefined] or the empty string; they depend neither on the
    key nor on the store. *)
Theorem set_body_is_gzip_of_json (this : HttpStore) (key : Buffer)
  (value : JSValue) :
  req_body (set_request this key value)
  = zlib_gzip Z_BEST_COMPRESSION
      (utf8_encode
         match JSON_stringify value with
         | Some t => if is_empty t then [110; 117; 108; 108]%N else t
         | None => [110; 117; 108; 108]%N
         end)
  /\ level ZLIB_OPTIONS = Z_BEST_COMPRESSION
  /\ utf8_encode [110; 117; 108; 108]%N = [x6e; x75; x6c; x6c].
Proof.
  split; [|split; reflexivity].
  unfold set_request, stringify_or_null. simpl.
  destruct (JSON_stringify value) as [[|c t]|]; reflexivity.
Qed.

(** ** Settling *)

Lemma resolve_settled {A} (p : Promise A) (v : A) :
  p <> Pending -> resolve p v = p.
Proof. destruct p; simpl; congruence. Qed.

Lemma reject_settled {A} (p : Promise A) (e : JsError) :
  p <> Pending -> reject p e = p.
Proof. destruct p; simpl; congruence. Qed.

Lemma get_handle_settled (st : GetState) (ev : Event) :
  get_promise st <> Pending ->
  get_promise (get_handle st ev) = get_promise st.
Proof.
  intros H. unfold get_handle.
  destruct ev, (get_res st); simpl;
    repeat match goal with
           | |- context [if ?b then _ else _] => destruct b; simpl
           | |- context [match JSON_parse ?t with _ => _ end] =>
             destruct (JSON_parse t); simpl
           end;
    auto using resolve_settled, reject_settled.
Qed.

(** A settled promise of [get] keeps its state whatever comes next. *)
Lemma get_settled_stable (events : list Event) (st : GetState) :
  get_promise st <> Pending ->
  get_promise (fold_left get_handle events st) = get_promise st.
Proof.
  revert st. induction events as [|ev events IH]; intros st H; simpl.
  - reflexivity.
  - rewrite IH; rewrite get_handle_settled; auto.
Qed.

Lemma get_handle_resumed (st : GetState) (ev : Event) :
  get_res st = Resumed ->
  get_res (get_handle st ev) = Resumed
  /\ get_data (get_handle st ev) = get_data st.
Proof.
  intros H. unfold get_handle. rewrite H. destruct ev; simpl; auto.
Qed.

(** Once the response is resumed, no listener of [get] reads it. *)
Lemma get_resumed_stable (events : list Event) (st : GetState) :
  get_res st = Resumed ->
  get_res (fold_left get_handle events st) = Resumed
  /\ get_data (fold_left get_handle events st) = get_data st.
Proof.
  revert st. induction events as [|ev events IH]; intros st H; simpl.
  - auto.
  - destruct (get_handle_resumed st ev H) as [Hr Hd].
    destruct (IH _ Hr) as [Hr' Hd']. rewrite Hr', Hd'. auto.
Qed.

(** ** [get]: the status dispatch *)

Lemma get_run_cons (ev : Event) (events : list Event) :
  get_run (ev :: events) = fold_left get_handle events (get_handle get_start ev).
Proof. reflexivity. Qed.

(** C2: when the response to [get] has status 404, the store resumes the
    response (its body flows and is discarded: no text is accumulated)
    and the promise is fulfilled with [null]; nothing delivered
    afterwards changes that, so the promise is never rejected. *)
Theorem get_404_resolves_null (this : HttpStore) (key : Buffer)
  (after : list Event) :
  snd (get this key (Response 404 :: after)) = Fulfilled VNull
  /\ get_res (get_run (Response 404 :: after)) = Resumed
  /\ get_data (get_run (Response 404 :: after)) = []
  /\ forall reason,
       snd (get this key (Response 404 :: after)) <> Rejected reason.
Proof.
  unfold get. cbn [snd]. rewrite get_run_cons.
  set (st := get_handle get_start (Response 404)).
  assert (Hp : get_promise st = Fulfilled VNull) by reflexivity.
  assert (Hr : get_res st = Resumed) by reflexivity.
  destruct (get_resumed_stable after st Hr) as [Hr' Hd'].
  rewrite get_settled_stable by (rewrite Hp; discriminate).
  rewrite Hp, Hr', Hd'. repeat split; auto. discriminate.
Qed.

(** C3: when the response to [get] has a status other than 200 and 404,
    the store resumes the response and the promise is rejected with an
    [HttpError] whose message is [HTTP error: ] followed by the decimal
    numeral of the status and whose status code is the status. *)
Theorem get_other_status_rejects (this : HttpStore) (key : Buffer)
  (code : Z) (after : list Event) :
  code <> 200%Z -> code <> 404%Z ->
  snd (get this key (Response code :: after))
  = Rejected (HttpError ("HTTP error: " ++ Z_to_string code) code)
  /\ get_res (get_run (Response code :: after)) = Resumed
  /\ get_data (get_run (Response code :: after)) = [].
Proof.
  intros H200 H404. unfold get. cbn [snd]. rewrite get_run_cons.
  set (st := get_handle get_start (Response code)).
  assert (Hst : st = {| get_promise :=
                          Rejected (HttpError ("HTTP error: " ++ Z_to_string code)
                                              code);
                        get_data := [];
                        get_res := Resumed |}).
  { unfold st, get_handle. simpl.
    destruct (Z.eqb_spec code 404); [contradiction|].
    destruct (Z.eqb_spec code 200); [contradiction|]. reflexivity. }
  assert (Hr : get_res st = Resumed) by (rewrite Hst; reflexivity).
  destruct (get_resumed_stable after st Hr) as [Hr' Hd'].
  rewrite get_settled_stable by (rewrite Hst; discriminate).
  rewrite Hr', Hd', Hst. simpl. auto.
Qed.

(** The message carries the status as a decimal numeral. *)
Lemma Z_to_string_decimal (z : Z) :
  option_map Z.of_int (NilZero.int_of_string (Z_to_string z)) = Some z.
Proof.
  unfold Z_to_string. rewrite NilZero.isi.
  - simpl. f_equal. apply DecimalZ.of_to.
  - destruct z; simpl; try discriminate.
    intros [= H]. exact (DecimalPos.Unsigned.to_uint_nonnil _ H).
  - destruct z; simpl; try discriminate.
    intros [= H]. exact (DecimalPos.Unsigned.to_uint_nonnil _ H).
Qed.

(** ** [get]: the gunzip stream *)

(** The ['data'] listener appends the decoding of each chunk. *)
Lemma get_accumulates (chunks : list Buffer) (st : GetState) :
  get_res st = Piped ->
  fold_left get_handle (map GunzipData chunks) st
  = {| get_promise := get_promise st;
       get_data := (get_data st ++ flat_map Buffer_toString chunks)%list;
       get_res := Piped |}.
Proof.
  revert st. induction chunks as [|chunk chunks IH]; intros st H.
  - simpl. rewrite app_nil_r. destruct st; simpl in *. congruence.
  - cbn [map fold_left]. rewrite IH.
    + unfold get_handle. rewrite H. cbn [get_promise get_data get_res flat_map].
      rewrite <- app_assoc. reflexivity.
    + unfold get_handle. rewrite H. reflexivity.
Qed.

(** The state of [get] after a response of status 200 and the chunks
    [chunks] of the gunzip stream. *)
Lemma get_run_200 (chunks : list Buffer) :
  get_run (Response 200 :: map GunzipData chunks)
  = {| get_promise := Pending;
       get_data := flat_map Buffer_toString chunks;
       get_res := Piped |}.
Proof.
  rewrite get_run_cons. rewrite get_accumulates by reflexivity. reflexivity.
Qed.

Lemma get_run_200_then (chunks : list Buffer) (ev : Event) (after : list Event) :
  get_promise
    (get_run (Response 200 :: map GunzipData chunks ++ ev :: after))
  = get_promise
      (fold_left get_handle after
         (get_handle {| get_promise := Pending;
                        get_data := flat_map Buffer_toString chunks;
                        get_res := Piped |} ev)).
Proof.
  unfold get_run.
  change (Response 200 :: map GunzipData chunks ++ ev :: after)%list
    with ((Response 200 :: map GunzipData chunks) ++ ev :: after)%list.
  rewrite fold_left_app. fold (get_run (Response 200 :: map GunzipData chunks)).
  rewrite get_run_200. reflexivity.
Qed.

(** C5: after a response of status 200 and any chunks, when the gunzip
    stream emits an error (its own, or one of the response that the
    store forwards to it), or when it ends and [JSON.parse] throws on the
    accumulated text, the promise is rejected with that very error
    object, which is not an [HttpError]. *)
Theorem get_decode_failure (this : HttpStore) (key : Buffer)
  (chunks : list Buffer) (last : Event) (err : NativeError)
  (after : list Event) :
  last = GunzipError err
  \/ last = ResError err
  \/ (last = GunzipEnd
      /\ JSON_parse (flat_map Buffer_toString chunks) = inl err) ->
  snd (get this key
         (Response 200 :: map GunzipData chunks ++ last :: after))
  = Rejected (Native err)
  /\ is_HttpError (Native err) = false.
Proof.
  intros H. split; [|reflexivity].
  unfold get. cbn [snd]. rewrite get_run_200_then.
  rewrite get_settled_stable.
  - destruct H as [->|[->|[-> Hp]]]; unfold get_handle; simpl;
      try rewrite Hp; reflexivity.
  - destruct H as [->|[->|[-> Hp]]]; unfold get_handle; simpl;
      try rewrite Hp; discriminate.
Qed.

(** When the stream ends on a text that parses, the promise is fulfilled
    with the parsed value. *)
Lemma get_parses_at_end (chunks : list Buffer) (value : JSValue)
  (after : list Event) :
  JSON_parse (flat_map Buffer_toString chunks) = inr value ->
  get_promise
    (get_run (Response 200 :: map GunzipData chunks ++ GunzipEnd :: after))
  = Fulfilled value.
Proof.
  intros H. rewrite get_run_200_then, get_settled_stable;
    unfold get_handle; simpl; rewrite H; [reflexivity|discriminate].
Qed.

(** ** [set]: the response *)

Lemma set_run_cons (ev : Event) (events : list Event) :
  set_run (ev :: events) = fold_left set_handle events (set_handle set_start ev).
Proof. reflexivity. Qed.

Lemma set_handle_settled (st : SetState) (ev : Event) :
  set_promise st <> Pending ->
  set_promise (set_handle st ev) = set_promise st.
Proof.
  intros H. unfold set_handle. destruct ev, (set_res st); simpl;
    auto using resolve_settled, reject_settled.
Qed.

Lemma set_settled_stable (events : list Event) (st : SetState) :
  set_promise st <> Pending ->
  set_promise (fold_left set_handle events st) = set_promise st.
Proof.
  revert st. induction events as [|ev events IH]; intros st H; simpl.
  - reflexivity.
  - rewrite IH; rewrite set_handle_settled; auto.
Qed.

(** The body of the response is discarded. *)
Lemma set_discards_body (body : list Buffer) (st : SetState) :
  fold_left set_handle (map ResData body) st = st.
Proof.
  induction body as [|chunk body IH]; [reflexivity|].
  cbn [map fold_left].
  replace (set_handle st (ResData chunk)) with st; [exact IH|].
  unfold set_handle. destruct (set_res st); reflexivity.
Qed.

(** The response callback does not look at the status. *)
Lemma set_handle_any_status (st : SetState) (code code' : Z) :
  set_handle st (Response code) = set_handle st (Response code').
Proof. reflexivity. Qed.

(** A rejection of [set] comes from an ['error'] of the response. *)
Lemma set_rejected_by_response (events seen : list Event) (st : SetState) :
  (forall reason, set_promise st = Rejected reason ->
     exists err, reason = Native err /\ In (ResError err) seen) ->
  forall reason,
    set_promise (fold_left set_handle events st) = Rejected reason ->
    exists err, reason = Native err /\ In (ResError err) (seen ++ events)%list.
Proof.
  revert seen st. induction events as [|ev events IH]; intros seen st Hst reason.
  - simpl. rewrite app_nil_r. apply Hst.
  - simpl. intros H.
    replace (seen ++ ev :: events)%list with ((seen ++ [ev]) ++ events)%list
      by (rewrite <- app_assoc; reflexivity).
    apply (IH (seen ++ [ev])%list (set_handle st ev)); [|exact H].
    clear H reason. intros reason H.
    destruct (set_promise st) as [| |r] eqn:Hp.
    + unfold set_handle in H. destruct ev, (set_res st); simpl in H;
        rewrite Hp in H; simpl in H; try discriminate.
      injection H as <-. exists err. split; [reflexivity|].
      apply in_or_app. right. left. reflexivity.
    + rewrite set_handle_settled in H by (rewrite Hp; discriminate).
      rewrite Hp in H. discriminate.
    + rewrite set_handle_settled in H by (rewrite Hp; discriminate).
      rewrite Hp in H. injection H as <-.
      destruct (Hst r eq_refl) as (err & -> & Hin).
      exists err. split; [reflexivity|]. apply in_or_app. left. exact Hin.
Qed.

(** C4: the response callback of [set] does not branch on the status.
    Whatever the status, once the response ends the promise is fulfilled;
    two responses that differ only in their status settle the promise
    alike; an ['error'] of the response before its end rejects the
    promise with that error; and the promise is rejected by nothing
    else. *)
Theorem set_ignores_status (this : HttpStore) (key : Buffer) (value : JSValue)
  (code : Z) (body : list Buffer) (after : list Event) :
  snd (set this key value
         (Response code :: map ResData body ++ ResEnd :: after))
  = Fulfilled tt
  /\ (forall code' events,
        snd (set this key value (Response code :: events))
        = snd (set this key value (Response code' :: events)))
  /\ (forall err,
        snd (set this key value
               (Response code :: map ResData body ++ ResError err :: after))
        = Rejected (Native err))
  /\ (forall events reason,
        snd (set this key value events) = Rejected reason ->
        exists err, reason = Native err /\ In (ResError err) events).
Proof.
  unfold set. cbn [snd]. repeat split.
  - rewrite set_run_cons, fold_left_app, set_discards_body.
    cbn [fold_left]. rewrite set_settled_stable; [reflexivity|discriminate].
  - intros err. rewrite set_run_cons, fold_left_app, set_discards_body.
    cbn [fold_left]. rewrite set_settled_stable; [reflexivity|discriminate].
  - intros events reason H.
    apply (set_rejected_by_response events [] set_start); [|exact H].
    discriminate.
Qed.

End Properties.

(** ** UTF-8: decoding what was encoded *)

Section Utf8.

Local Open Scope N_scope.

Lemma land_shiftl_low (a k x : N) :
  x < 2 ^ k -> N.land (N.shiftl a k) x = 0.
Proof.
  intros H. apply N.bits_inj_0. intros i. rewrite N.land_spec.
  destruct (N.lt_ge_cases i k) as [Hi|Hi].
  - rewrite N.shiftl_spec_low by exact Hi. reflexivity.
  - destruct (N.eq_dec x 0) as [->|Hx].
    + rewrite N.bits_0. apply andb_false_r.
    + rewrite (N.bits_above_log2 x i), andb_false_r; [reflexivity|].
      apply N.log2_lt_pow2; [lia|].
      apply N.lt_le_trans with (2 ^ k); [exact H|].
      apply N.pow_le_mono_r; lia.
Qed.

Lemma lor_shiftl_low (a k x : N) :
  x < 2 ^ k -> N.lor (N.shiftl a k) x = a * 2 ^ k + x.
Proof.
  intros H. pose proof (land_shiftl_low a k x H) as H0.
  rewrite <- N.lxor_lor, <- N.add_nocarry_lxor by exact H0.
  rewrite N.shiftl_mul_pow2. reflexivity.
Qed.

Lemma to_N_byte_of_N (x : N) : x < 256 -> Byte.to_N (byte_of_N x) = x.
Proof.
  intros H. unfold byte_of_N. rewrite N.mod_small by exact H.
  destruct (Byte.of_N x) as [b|] eqn:E.
  - apply Byte.to_of_N, E.
  - apply Byte.of_N_None_iff in E. lia.
Qed.

Lemma lor_128 (x : N) : x < 64 -> N.lor 128 x = 128 + x.
Proof. intros H. apply (lor_shiftl_low 2 6 x H). Qed.

Lemma land_63 (y : N) : N.land y 63 = y mod 64.
Proof. apply (N.land_ones y 6). Qed.

Lemma land_31 (y : N) : N.land y 31 = y mod 32.
Proof. apply (N.land_ones y 5). Qed.

Lemma land_15 (y : N) : N.land y 15 = y mod 16.
Proof. apply (N.land_ones y 4). Qed.

Lemma land_7 (y : N) : N.land y 7 = y mod 8.
Proof. apply (N.land_ones y 3). Qed.

Lemma encode_cont (y : N) :
  byte_of_N (N.lor 128 (N.land y 63)) = byte_of_N (128 + y mod 64).
Proof.
  rewrite land_63, lor_128; [reflexivity|]. apply N.mod_lt. discriminate.
Qed.

(** A continuation octet in the expected range adds its six bits. *)
Lemma utf8_step_cont (cp : N) (needed : nat) (lower upper x : N) :
  x < 64 -> lower <= 128 + x -> 128 + x <= upper ->
  utf8_step (Partial cp needed lower upper) (byte_of_N (128 + x))
  = match needed with
    | S (S k) => ([], Partial (cp * 64 + x) (S k) 128 191)
    | _ => ([cp * 64 + x], Idle)
    end.
Proof.
  intros Hx Hlo Hhi. unfold utf8_step.
  rewrite to_N_byte_of_N by lia.
  destruct (N.leb_spec lower (128 + x)); [|lia].
  destruct (N.leb_spec (128 + x) upper); [|lia].
  cbn [andb]. rewrite land_63.
  replace ((128 + x) mod 64) with x.
  - rewrite (lor_shiftl_low cp 6 x Hx). reflexivity.
  - apply (N.mod_unique _ _ 2); lia.
Qed.

Lemma utf8_start_ascii (c : N) :
  c < 128 -> utf8_step Idle (byte_of_N c) = ([c], Idle).
Proof.
  intros H. unfold utf8_step, utf8_start. rewrite to_N_byte_of_N by lia.
  destruct (N.leb_spec c 127); [reflexivity|lia].
Qed.

Lemma utf8_start_2 (h : N) :
  2 <= h < 32 ->
  utf8_step Idle (byte_of_N (192 + h)) = ([], Partial h 1 128 191).
Proof.
  intros H. unfold utf8_step, utf8_start. rewrite to_N_byte_of_N by lia.
  destruct (N.leb_spec (192 + h) 127); [lia|].
  destruct (N.leb_spec 194 (192 + h)); [|lia].
  destruct (N.leb_spec (192 + h) 223); [|lia].
  cbn [andb]. rewrite land_31.
  replace ((192 + h) mod 32) with h; [reflexivity|].
  apply (N.mod_unique _ _ 6); lia.
Qed.

Lemma utf8_start_3 (a : N) :
  a < 16 ->
  utf8_step Idle (byte_of_N (224 + a))
  = ([], Partial a 2 (if a =? 0 then 160 else 128)
                     (if a =? 13 then 159 else 191)).
Proof.
  intros H. unfold utf8_step, utf8_start. rewrite to_N_byte_of_N by lia.
  destruct (N.leb_spec (224 + a) 127); [lia|].
  destruct (N.leb_spec 194 (224 + a)); [|lia].
  destruct (N.leb_spec (224 + a) 223); [lia|].
  destruct (N.leb_spec 224 (224 + a)); [|lia].
  destruct (N.leb_spec (224 + a) 239); [|lia].
  cbn [andb]. rewrite land_15.
  replace ((224 + a) mod 16) with a by (apply (N.mod_unique _ _ 14); lia).
  replace (224 + a =? 224) with (a =? 0)
    by (destruct (N.eqb_spec a 0), (N.eqb_spec (224 + a) 224); lia || reflexivity).
  replace (224 + a =? 237) with (a =? 13)
    by (destruct (N.eqb_spec a 13), (N.eqb_spec (224 + a) 237); lia || reflexivity).
  reflexivity.
Qed.

Lemma utf8_start_4 (a : N) :
  a <= 4 ->
  utf8_step Idle (byte_of_N (240 + a))
  = ([], Partial a 3 (if a =? 0 then 144 else 128)
                     (if a =? 4 then 143 else 191)).
Proof.
  intros H. unfold utf8_step, utf8_start. rewrite to_N_byte_of_N by lia.
  destruct (N.leb_spec (240 + a) 127); [lia|].
  destruct (N.leb_spec 194 (240 + a)); [|lia].
  destruct (N.leb_spec (240 + a) 223); [lia|].
  destruct (N.leb_spec 224 (240 + a)); [|lia].
  destruct (N.leb_spec (240 + a) 239); [lia|].
  destruct (N.leb_spec 240 (240 + a)); [|lia].
  destruct (N.leb_spec (240 + a) 244); [|lia].
  cbn [andb]. rewrite land_7.
  replace ((240 + a) mod 8) with a by (apply (N.mod_unique _ _ 30); lia).
  replace (240 + a =? 240) with (a =? 0)
    by (destruct (N.eqb_spec a 0), (N.eqb_spec (240 + a) 240); lia || reflexivity).
  replace (240 + a =? 244) with (a =? 4)
    by (destruct (N.eqb_spec a 4), (N.eqb_spec (240 + a) 244); lia || reflexivity).
  reflexivity.
Qed.

Lemma lor_192 (x : N) : x < 64 -> N.lor 192 x = 192 + x.
Proof. intros H. apply (lor_shiftl_low 3 6 x H). Qed.

Lemma lor_224 (x : N) : x < 32 -> N.lor 224 x = 224 + x.
Proof. intros H. apply (lor_shiftl_low 7 5 x H). Qed.

Lemma lor_240 (x : N) : x < 16 -> N.lor 240 x = 240 + x.
Proof. intros H. apply (lor_shiftl_low 15 4 x H). Qed.

Lemma shiftr_6 (c : N) : N.shiftr c 6 = c / 64.
Proof. apply (N.shiftr_div_pow2 c 6). Qed.

Lemma shiftr_12 (c : N) : N.shiftr c 12 = c / 64 / 64.
Proof. rewrite N.Div0.div_div. apply (N.shiftr_div_pow2 c 12). Qed.

Lemma shiftr_18 (c : N) : N.shiftr c 18 = c / 64 / 64 / 64.
Proof. rewrite !N.Div0.div_div. apply (N.shiftr_div_pow2 c 18). Qed.

(** [x] split into its last six bits and the rest. *)
Lemma sextet (x : N) : x = 64 * (x / 64) + x mod 64 /\ x mod 64 < 64.
Proof.
  split; [apply N.div_mod; discriminate|apply N.mod_lt; discriminate].
Qed.

Lemma utf8_run_step (st : Utf8State) (b : byte) (rest : Buffer)
  (out : text) (st' : Utf8State) :
  utf8_step st b = (out, st') ->
  utf8_run st (b :: rest) = (out ++ utf8_run st' rest)%list.
Proof. intros H. cbn [utf8_run]. rewrite H. reflexivity. Qed.

Lemma utf8_char_round_trip (c : N) (rest : Buffer) :
  is_scalar c = true ->
  utf8_run Idle (utf8_encode_char c ++ rest)%list = c :: utf8_run Idle rest.
Proof.
  intros Hs. unfold is_scalar in Hs. apply andb_prop in Hs as [Hmax Hsur].
  apply N.ltb_lt in Hmax. apply negb_true_iff in Hsur.
  unfold utf8_encode_char. rewrite Hsur.
  rewrite !encode_cont, shiftr_6, shiftr_12, shiftr_18.
  destruct (sextet c) as [E1 B1].
  destruct (sextet (c / 64)) as [E2 B2].
  destruct (sextet (c / 64 / 64)) as [E3 B3].
  set (q1 := c / 64) in *. set (e := c mod 64) in *.
  set (q2 := q1 / 64) in *. set (d := q1 mod 64) in *.
  set (q3 := q2 / 64) in *. set (b := q2 mod 64) in *.
  clearbody q1 e q2 d q3 b.
  destruct (N.ltb_spec c 128) as [H1|H1].
  - cbn [app]. rewrite (utf8_run_step _ _ _ _ _ (utf8_start_ascii c H1)).
    reflexivity.
  - destruct (N.ltb_spec c 2048) as [H2|H2].
    + rewrite lor_192 by lia. cbn [app].
      rewrite (utf8_run_step _ _ _ _ _ (utf8_start_2 q1 ltac:(lia))).
      rewrite (utf8_run_step _ _ _ _ _
                 (utf8_step_cont q1 1 128 191 e ltac:(lia) ltac:(lia) ltac:(lia))).
      cbn [app]. f_equal. lia.
    + destruct (N.ltb_spec c 65536) as [H3|H3].
      * rewrite lor_224 by lia. cbn [app].
        rewrite (utf8_run_step _ _ _ _ _ (utf8_start_3 q2 ltac:(lia))).
        assert (Hsur' : c < 55296 \/ 57343 < c).
        { destruct (N.leb_spec 55296 c), (N.leb_spec c 57343);
            try discriminate; lia. }
        rewrite (utf8_run_step _ _ _ _ _
                   (utf8_step_cont q2 2 (if q2 =? 0 then 160 else 128)
                      (if q2 =? 13 then 159 else 191) d ltac:(lia)
                      ltac:(destruct (N.eqb_spec q2 0); lia)
                      ltac:(destruct (N.eqb_spec q2 13); lia))).
        rewrite (utf8_run_step _ _ _ _ _
                   (utf8_step_cont _ 1 128 191 e ltac:(lia) ltac:(lia) ltac:(lia))).
        cbn [app]. f_equal. lia.
      * destruct (N.ltb_spec c 1114112) as [H4|H4]; [|lia].
        rewrite lor_240 by lia. cbn [app].
        rewrite (utf8_run_step _ _ _ _ _ (utf8_start_4 q3 ltac:(lia))).
        rewrite (utf8_run_step _ _ _ _ _
                   (utf8_step_cont q3 3 (if q3 =? 0 then 144 else 128)
                      (if q3 =? 4 then 143 else 191) b ltac:(lia)
                      ltac:(destruct (N.eqb_spec q3 0); lia)
                      ltac:(destruct (N.eqb_spec q3 4); lia))).
        rewrite (utf8_run_step _ _ _ _ _
                   (utf8_step_cont _ 2 128 191 d ltac:(lia) ltac:(lia) ltac:(lia))).
        rewrite (utf8_run_step _ _ _ _ _
                   (utf8_step_cont _ 1 128 191 e ltac:(lia) ltac:(lia) ltac:(lia))).
        cbn [app]. f_equal. lia.
Qed.

End Utf8.

(** A text of scalar values, written as UTF-8, is read back unchanged,
    and the decoder is ready for what follows. *)
Lemma utf8_run_encode (s : text) (rest : Buffer) :
  forallb is_scalar s = true ->
  utf8_run Idle (utf8_encode s ++ rest)%list = (s ++ utf8_run Idle rest)%list.
Proof.
  induction s as [|c s IH]; intros H; [reflexivity|].
  cbn [forallb] in H. apply andb_prop in H as [Hc Hs].
  cbn [utf8_encode flat_map]. rewrite <- app_assoc.
  rewrite utf8_char_round_trip by exact Hc.
  cbn [app]. f_equal. apply IH, Hs.
Qed.

Lemma Buffer_toString_utf8_encode (s : text) :
  forallb is_scalar s = true ->
  Buffer_toString (utf8_encode s) = s.
Proof.
  intros H. unfold Buffer_toString.
  rewrite <- (app_nil_r (utf8_encode s)), utf8_run_encode by exact H.
  apply app_nil_r.
Qed.

Lemma plain_chars_scalar (s : text) :
  forallb plain_char s = true -> forallb is_scalar s = true.
Proof.
  induction s as [|c s IH]; [reflexivity|].
  cbn [forallb]. intros H. apply andb_prop in H as [Hc Hs].
  rewrite (IH Hs), andb_true_r. unfold plain_char in Hc. unfold is_scalar.
  repeat (apply andb_prop in Hc as [Hc ?]).
  apply andb_true_intro. split; assumption.
Qed.

(** Decoding chunk by chunk agrees with decoding as a whole when every
    chunk holds whole characters. *)
Lemma toString_whole_characters (pieces : list text) :
  forallb is_scalar (List.concat pieces) = true ->
  flat_map Buffer_toString (map utf8_encode pieces) = List.concat pieces.
Proof.
  induction pieces as [|piece pieces IH]; intros H; [reflexivity|].
  cbn [List.concat] in H. rewrite forallb_app in H.
  apply andb_prop in H as [Hp Hr].
  cbn [map flat_map List.concat].
  rewrite Buffer_toString_utf8_encode by exact Hp. rewrite IH by exact Hr.
  reflexivity.
Qed.

Lemma utf8_encode_concat (pieces : list text) :
  List.concat (map utf8_encode pieces) = utf8_encode (List.concat pieces).
Proof.
  induction pieces as [|piece pieces IH]; [reflexivity|].
  cbn [map List.concat]. rewrite IH. unfold utf8_encode.
  rewrite flat_map_app. reflexivity.
Qed.

(** ** [set] then [get] *)

Section RoundTrip.

Context {runtime : NodeRuntime} {laws : RuntimeLaws runtime}.

Local Open Scope list_scope.

(** X11: When the service returns the octets [set] sent and every chunk of the
    gunzip stream holds whole characters, [get] yields the value
    stored (for a value that [JSON.parse] reads back from its JSON text,
    the text being made of scalar values). *)
Lemma get_after_set_whole_characters (this : HttpStore) (key : Buffer)
  (value : JSValue) (pieces : list text) :
  List.concat pieces = stringify_or_null value ->
  forallb is_scalar (stringify_or_null value) = true ->
  JSON_parse (stringify_or_null value) = inr value ->
  gunzip_events (req_body (set_request this key value))
                (map GunzipData (map utf8_encode pieces) ++ [GunzipEnd])
  /\ snd (get this key
            (Response 200
               :: map GunzipData (map utf8_encode pieces) ++ [GunzipEnd]))
     = Fulfilled value.
Proof.
  intros Hpieces Hscalar Hparse. split.
  - apply (gunzip_events_end _ (utf8_encode (stringify_or_null value))).
    + apply gunzip_gzip.
    + rewrite utf8_encode_concat, Hpieces. reflexivity.
  - unfold get. cbn [snd]. apply get_parses_at_end.
    rewrite toString_whole_characters by (rewrite Hpieces; exact Hscalar).
    rewrite Hpieces. exact Hparse.
Qed.

(** C1, at the value of the one-character string U+00E9: the service
    returns the octets [set] sent, the gunzip stream delivers the four
    decompressed octets [22 C3 A9 22] in two chunks that part the two
    octets of the character, and [get] is fulfilled with the string of
    two U+FFFD, not with the value stored: each chunk is decoded on its
    own. *)
Theorem get_after_set_split_character (this : HttpStore) (key : Buffer) :
  let value := VString [233%N] in
  let events := [GunzipData [x22; xc3]; GunzipData [xa9; x22]; GunzipEnd] in
  gunzip_events (req_body (set_request this key value)) events
  /\ snd (get this key (Response 200 :: events))
     = Fulfilled (VString [65533%N; 65533%N])
  /\ snd (get this key (Response 200 :: events)) <> Fulfilled value.
Proof.
  intros value events.
  assert (Htext : stringify_or_null value = quote [233%N]).
  { unfold stringify_or_null, value.
    rewrite (stringify_plain [233%N] eq_refl). reflexivity. }
  assert (Hget : snd (get this key (Response 200 :: events))
                 = Fulfilled (VString [65533%N; 65533%N])).
  { unfold get. cbn [snd].
    apply (get_parses_at_end [[x22; xc3]; [xa9; x22]]).
    exact (parse_plain [65533%N; 65533%N] eq_refl). }
  split; [|split].
  - apply (gunzip_events_end _ [x22; xc3; xa9; x22] [[x22; xc3]; [xa9; x22]]).
    + unfold set_request. cbn [req_body]. rewrite Htext. apply gunzip_gzip.
    + reflexivity.
  - exact Hget.
  - rewrite Hget. unfold value. intros [= H].
Qed.

(** A chunk that ends after the first octet of U+00E9, and one that
    starts at its second octet. *)
Lemma toString_cut_after_lead (s : text) :
  forallb is_scalar s = true ->
  Buffer_toString (utf8_encode s ++ [xc3]) = s ++ [REPLACEMENT].
Proof.
  intros H. unfold Buffer_toString. rewrite utf8_run_encode by exact H.
  reflexivity.
Qed.

Lemma toString_cut_before_trail (s : text) :
  forallb is_scalar s = true ->
  Buffer_toString (xa9 :: utf8_encode s) = REPLACEMENT :: s.
Proof.
  intros H. unfold Buffer_toString.
  change (utf8_run Idle (xa9 :: utf8_encode s))
    with (REPLACEMENT :: utf8_run Idle (utf8_encode s)).
  fold (Buffer_toString (utf8_encode s)).
  rewrite Buffer_toString_utf8_encode by exact H. reflexivity.
Qed.

(** X12: The corruption does not depend on the size of the chunks: wherever
    the text holds the character U+00E9 and a chunk boundary falls
    between its two octets, [get] yields a string in which two U+FFFD
    stand for it. *)
Lemma get_after_set_split_anywhere (this : HttpStore) (key : Buffer)
  (before after : text) :
  forallb plain_char before = true ->
  forallb plain_char after = true ->
  let value := VString (before ++ 233%N :: after) in
  let events :=
    [GunzipData (utf8_encode (34%N :: before) ++ [xc3]);
     GunzipData (xa9 :: utf8_encode (after ++ [34%N]));
     GunzipEnd] in
  gunzip_events (req_body (set_request this key value)) events
  /\ snd (get this key (Response 200 :: events))
     = Fulfilled (VString (before ++ 65533%N :: 65533%N :: after))
  /\ snd (get this key (Response 200 :: events)) <> Fulfilled value.
Proof.
  intros Hb Ha value events.
  assert (Hplain : forallb plain_char (before ++ 233%N :: after) = true).
  { rewrite forallb_app, Hb. cbn [forallb]. rewrite Ha. reflexivity. }
  assert (Hplain' : forallb plain_char
                      (before ++ 65533%N :: 65533%N :: after) = true).
  { rewrite forallb_app, Hb. cbn [forallb]. rewrite Ha. reflexivity. }
  assert (Htext : stringify_or_null value = quote (before ++ 233%N :: after)).
  { unfold stringify_or_null, value. rewrite (stringify_plain _ Hplain).
    reflexivity. }
  assert (Hget : snd (get this key (Response 200 :: events))
                 = Fulfilled (VString (before ++ 65533%N :: 65533%N :: after))).
  { unfold get. cbn [snd].
    apply (get_parses_at_end
             [utf8_encode (34%N :: before) ++ [xc3];
              xa9 :: utf8_encode (after ++ [34%N])]).
    cbn [flat_map].
    rewrite toString_cut_after_lead
      by (cbn [forallb]; rewrite (plain_chars_scalar _ Hb); reflexivity).
    rewrite toString_cut_before_trail
      by (rewrite forallb_app, (plain_chars_scalar _ Ha); reflexivity).
    rewrite app_nil_r.
    match goal with
    | |- JSON_parse ?t = _ =>
      replace t with (quote (before ++ 65533%N :: 65533%N :: after))
    end.
    - exact (parse_plain _ Hplain').
    - unfold quote, REPLACEMENT. cbn [app]. rewrite <- !app_assoc.
      reflexivity. }
  split; [|split].
  - apply (gunzip_events_end _
             (utf8_encode (quote (before ++ 233%N :: after)))
             [utf8_encode (34%N :: before) ++ [xc3];
              xa9 :: utf8_encode (after ++ [34%N])]).
    + unfold set_request. cbn [req_body]. rewrite Htext. apply gunzip_gzip.
    + cbn [List.concat]. rewrite app_nil_r. unfold quote, utf8_encode.
      cbn [flat_map]. rewrite !flat_map_app. cbn [flat_map].
      rewrite <- !app_assoc. reflexivity.
  - exact Hget.
  - rewrite Hget. unfold value. intros [= H].
    apply app_inv_head in H. discriminate H.
Qed.

End RoundTrip.

(** ** The small runtime *)

Lemma sample_escape_plain (c : N) :
  plain_char c = true -> sample_escape c = [c].
Proof.
  intros H. unfold sample_escape.
  repeat match goal with
         | |- context [(c =? ?k)%N] =>
           destruct (N.eqb_spec c k); [subst c; discriminate H|]
         end.
  rewrite H. reflexivity.
Qed.

Lemma sample_quote_plain (s : text) :
  forallb plain_char s = true -> sample_quote s = quote s.
Proof.
  intros H. unfold sample_quote, quote. do 2 f_equal.
  induction s as [|c s IH]; [reflexivity|].
  cbn [forallb] in H. apply andb_prop in H as [Hc Hs].
  cbn [flat_map]. rewrite sample_escape_plain, IH by assumption. reflexivity.
Qed.

Lemma sample_parse_chars_plain (s rest : text) :
  forallb plain_char s = true ->
  sample_parse_chars (s ++ 34%N :: rest)%list = Some (s, rest).
Proof.
  induction s as [|c s IH]; intros H; [reflexivity|].
  cbn [forallb] in H. apply andb_prop in H as [Hc Hs].
  cbn [app sample_parse_chars]. rewrite (IH Hs).
  unfold plain_char in Hc.
  repeat (apply andb_prop in Hc as [Hc ?]).
  destruct (N.eqb_spec c 34); [discriminate|].
  destruct (N.eqb_spec c 92); [discriminate|].
  apply N.leb_le in Hc.
  destruct (N.ltb_spec c 32); [lia|]. reflexivity.
Qed.

Lemma sample_runtime_laws : RuntimeLaws sample_runtime.
Proof.
  split.
  - reflexivity.
  - intros s H. cbn. rewrite sample_quote_plain by exact H. reflexivity.
  - intros s H. cbn. unfold sample_parse, quote.
    cbn [List.length sample_parse_value sample_skip_ws sample_is_ws
         N.eqb Pos.eqb orb].
    rewrite (sample_parse_chars_plain s [] H). reflexivity.
Qed.

(** ** The theorems at work on the small runtime *)

(** C6 on the endpoints [http://localhost:8080/cache] (plain HTTP),
    [https://cache.example.com/v1/store] and
    [ftp://files.example.com/cache] (both HTTPS). *)
Lemma constructor_selects_transport_witness :
  (exists this,
      constructor (runtime := sample_runtime) sample_options = inr this
      /\ _module this = http
      /\ agent_module (_getAgent this) = http
      /\ agent_module (_setAgent this) = http)
  /\ (exists this,
         constructor (runtime := sample_runtime) sample_options_no_port
         = inr this
         /\ _module this = https
         /\ agent_module (_getAgent this) = https
         /\ agent_module (_setAgent this) = https)
  /\ (exists this,
         constructor (runtime := sample_runtime) sample_options_ftp = inr this
         /\ _module this = https
         /\ agent_module (_getAgent this) = https
         /\ agent_module (_setAgent this) = https).
Proof.
  split; [|split].
  - destruct (constructor_selects_transport (runtime := sample_runtime)
                sample_options _ eq_refl eq_refl eq_refl)
      as (this & Hc & Hiff & _ & Hg & Hs).
    assert (Hm : _module this = http) by (apply Hiff; reflexivity).
    exists this. rewrite Hg, Hs. auto.
  - destruct (constructor_selects_transport (runtime := sample_runtime)
                sample_options_no_port _ eq_refl eq_refl eq_refl)
      as (this & Hc & _ & Hother & Hg & Hs).
    assert (Hm : _module this = https) by (apply Hother; discriminate).
    exists this. rewrite Hg, Hs. auto.
  - destruct (constructor_selects_transport (runtime := sample_runtime)
                sample_options_ftp _ eq_refl eq_refl eq_refl)
      as (this & Hc & _ & Hother & Hg & Hs).
    assert (Hm : _module this = https) by (apply Hother; discriminate).
    exists this. rewrite Hg, Hs. auto.
Defined.

(** C7 on the endpoint [localhost] (no hostname) and on
    [http://localhost:8080/cache]. *)
Lemma constructor_checks_endpoint_witness :
  constructor (runtime := sample_runtime) sample_options_no_host
  = inl (TypeError "Invalid endpoint: localhost")
  /\ exists this,
       constructor (runtime := sample_runtime) sample_options = inr this
       /\ Some "localhost" = Some (_host this)
       /\ Some "/cache" = Some (_path this).
Proof.
  split.
  - apply (proj1 (constructor_checks_endpoint (runtime := sample_runtime)
                    sample_options_no_host _ eq_refl)).
    left. reflexivity.
  - apply (proj2 (constructor_checks_endpoint (runtime := sample_runtime)
                    sample_options _ eq_refl)); reflexivity.
Defined.

(** C10 on the endpoint [https://cache.example.com/v1/store]. *)
Lemma absent_port_is_zero_witness :
  exists this,
    constructor (runtime := sample_runtime) sample_options_no_port = inr this
    /\ _port this = Num 0
    /\ _port this <> Num 80 /\ _port this <> Num 443
    /\ opt_port (req_options (get_request this [x0a; xff])) = _port this
    /\ opt_port (req_options
                   (set_request (runtime := sample_runtime) this [x0a; xff]
                                VNull))
       = _port this.
Proof.
  eexists. split; [reflexivity|].
  eapply (absent_port_is_zero (runtime := sample_runtime)
            sample_options_no_port); reflexivity.
Defined.

(** C3 on a response of status 500. *)
Lemma get_other_status_rejects_witness :
  500%Z <> 200%Z /\ 500%Z <> 404%Z
  /\ snd (get (runtime := sample_runtime) sample_store [x0a; xff]
              [Response 500; ResData [x6f; x6f]; ResEnd])
     = Rejected (HttpError "HTTP error: 500" 500).
Proof.
  split; [discriminate|]. split; [discriminate|].
  apply (get_other_status_rejects (runtime := sample_runtime)
           sample_store [x0a; xff] 500 [ResData [x6f; x6f]; ResEnd]);
    discriminate.
Defined.

(** C5 on a gunzip stream that fails after one chunk, and on one that
    ends after the text of a lone opening brace. *)
Lemma get_decode_failure_witness :
  snd (get (runtime := sample_runtime) sample_store [x0a; xff]
           [Response 200; GunzipData [x7b];
            GunzipError {| err_name := "Error";
                           err_message := "unexpected end of file";
                           err_code := Some "Z_BUF_ERROR" |}])
  = Rejected (Native {| err_name := "Error";
                        err_message := "unexpected end of file";
                        err_code := Some "Z_BUF_ERROR" |})
  /\ snd (get (runtime := sample_runtime) sample_store [x0a; xff]
              [Response 200; GunzipData [x7b]; GunzipEnd])
     = Rejected (Native (SyntaxError "Unexpected token in JSON")).
Proof.
  split.
  - apply (get_decode_failure (runtime := sample_runtime) sample_store
             [x0a; xff] [[x7b]] _ _ []).
    left. reflexivity.
  - apply (get_decode_failure (runtime := sample_runtime) sample_store
             [x0a; xff] [[x7b]] GunzipEnd _ []).
    right. right. split; reflexivity.
Defined.

(** C1 on the small runtime: the octets [set] sends for the string
    U+00E9, and what [get] yields when the chunks part the character. *)
Lemma get_after_set_split_character_witness :
  req_body (set_request (runtime := sample_runtime) sample_store [x0a; xff]
                        (VString [233%N]))
  = [x1f; x8b; x22; xc3; xa9; x22]
  /\ snd (get (runtime := sample_runtime) sample_store [x0a; xff]
              [Response 200; GunzipData [x22; xc3]; GunzipData [xa9; x22];
               GunzipEnd])
     = Fulfilled (VString [65533%N; 65533%N]).
Proof.
  split; [reflexivity|].
  apply (get_after_set_split_character (runtime := sample_runtime)
           (laws := sample_runtime_laws) sample_store [x0a; xff]).
Defined.

(** * Further properties *)

Section Traces.

Context {runtime : NodeRuntime}.

Local Open Scope list_scope.

(** ** [get]: failures of the transport *)

(** X1: An ['error'] of the request rejects [get] with a [NetworkError]
    carrying the message and the code of that error, when it comes
    before any response and also when it comes while the body of a
    response of status 200 is being read. *)
Theorem get_transport_failure (this : HttpStore) (key : Buffer)
  (err : NativeError) (chunks : list Buffer) (after : list Event) :
  snd (get this key (ReqError err :: after))
  = Rejected (NetworkError (err_message err) (err_code err))
  /\ snd (get this key
            (Response 200 :: map GunzipData chunks ++ ReqError err :: after))
     = Rejected (NetworkError (err_message err) (err_code err)).
Proof.
  unfold get. cbn [snd]. split.
  - rewrite get_run_cons, get_settled_stable; [reflexivity|discriminate].
  - rewrite get_run_200_then, get_settled_stable; [reflexivity|discriminate].
Qed.

(** ** [get]: the value is parsed at the end of the stream *)

(** X2: After a response of status 200, [get] stays pending while chunks
    arrive, whatever they hold; at the end of the gunzip stream it is
    fulfilled with the value [JSON.parse] reads from the decodings of
    the chunks, appended in their order of arrival. *)
Theorem get_resolves_at_end (this : HttpStore) (key : Buffer)
  (chunks : list Buffer) (value : JSValue) (after : list Event) :
  JSON_parse (flat_map Buffer_toString chunks) = inr value ->
  (forall n,
      snd (get this key (Response 200 :: map GunzipData (firstn n chunks)))
      = Pending)
  /\ snd (get this key
            (Response 200 :: map GunzipData chunks ++ GunzipEnd :: after))
     = Fulfilled value.
Proof.
  intros H. unfold get. cbn [snd]. split.
  - intros n. rewrite get_run_200. reflexivity.
  - apply get_parses_at_end, H.
Qed.

(** ** [get]: where a settled promise comes from *)

Lemma get_rejection_cause_more (seen : list Event) (ev : Event)
  (reason : JsError) :
  get_rejection_cause seen reason -> get_rejection_cause (seen ++ [ev]) reason.
Proof.
  intros [(err & -> & H)|[(code & -> & H & H2 & H4)|(err & -> & H & H')]].
  - left. exists err. split; [reflexivity|]. apply in_or_app. auto.
  - right. left. exists code. repeat split; auto. apply in_or_app. auto.
  - right. right. exists err. repeat split; auto.
    + apply in_or_app. auto.
    + destruct H' as [H'|[H'|(before & after & -> & Hj)]].
      * left. apply in_or_app. auto.
      * right. left. apply in_or_app. auto.
      * right. right. exists before, (after ++ [ev]).
        rewrite <- app_assoc. auto.
Qed.

Lemma get_fulfilment_cause_more (seen : list Event) (ev : Event)
  (value : JSValue) :
  get_fulfilment_cause seen value -> get_fulfilment_cause (seen ++ [ev]) value.
Proof.
  intros [(-> & H)|(H & H' & Ht)].
  - left. split; [reflexivity|]. apply in_or_app. auto.
  - right. repeat split; auto; apply in_or_app; auto.
Qed.

Lemma get_handle_piped (st : GetState) (ev : Event) :
  get_res (get_handle st ev) = Piped ->
  get_res st = Piped \/ ev = Response 200.
Proof.
  unfold get_handle. destruct ev as [err|code|chunk|err| |chunk|err| ];
    destruct (get_res st) eqn:Hr; cbn [get_res]; try rewrite Hr;
    auto; try discriminate.
  destruct (Z.eqb_spec code 404); [discriminate|].
  destruct (Z.eqb_spec code 200); [subst; auto|discriminate].
Qed.

Lemma get_handle_rejects (st : GetState) (ev : Event) (reason : JsError) :
  get_promise st = Pending ->
  get_promise (get_handle st ev) = Rejected reason ->
  (exists err,
      ev = ReqError err
      /\ reason = NetworkError (err_message err) (err_code err))
  \/ (exists code,
         ev = Response code /\ code <> 200%Z /\ code <> 404%Z
         /\ reason = HttpError ("HTTP error: " ++ Z_to_string code) code)
  \/ (exists err,
         get_res st = Piped /\ reason = Native err
         /\ (ev = GunzipError err \/ ev = ResError err
             \/ (ev = GunzipEnd /\ JSON_parse (get_data st) = inl err))).
Proof.
  intros Hp. unfold get_handle.
  destruct ev as [err|code|chunk|err| |chunk|err| ];
    destruct (get_res st) eqn:Hr; cbn [get_promise]; rewrite ?Hp;
    cbn [reject resolve]; try discriminate.
  1-3: intros [= <-]; left; exists err; auto.
  - destruct (Z.eqb_spec code 404), (Z.eqb_spec code 200);
      cbn [negb get_promise]; rewrite ?Hp; cbn [reject resolve];
      try discriminate.
    intros [= <-]. right. left. exists code. auto.
  - intros [= <-]. right. right. exists err. auto.
  - intros [= <-]. right. right. exists err. auto.
  - destruct (JSON_parse (get_data st)) as [e|v] eqn:Hj;
      cbn [reject resolve]; [|discriminate].
    intros [= <-]. right. right. exists e. auto 6.
Qed.

Lemma get_handle_fulfils (st : GetState) (ev : Event) (value : JSValue) :
  get_promise st = Pending ->
  get_promise (get_handle st ev) = Fulfilled value ->
  (ev = Response 404 /\ value = VNull)
  \/ (get_res st = Piped /\ ev = GunzipEnd
      /\ JSON_parse (get_data st) = inr value).
Proof.
  intros Hp. unfold get_handle.
  destruct ev as [err|code|chunk|err| |chunk|err| ];
    destruct (get_res st) eqn:Hr; cbn [get_promise]; rewrite ?Hp;
    cbn [reject resolve]; try discriminate.
  - destruct (Z.eqb_spec code 404), (Z.eqb_spec code 200);
      cbn [negb get_promise]; rewrite ?Hp; cbn [reject resolve];
      try discriminate; intros [= <-]; subst; auto.
  - destruct (JSON_parse (get_data st)) as [e|v]; cbn [reject resolve];
      [discriminate|].
    intros [= <-]. auto.
Qed.

Lemma get_invariant_step (seen : list Event) (st : GetState) (ev : Event) :
  get_invariant seen st -> get_invariant (seen ++ [ev]) (get_handle st ev).
Proof.
  intros (Hst & Hpipe & Hrej & Hful).
  assert (Hlast : In ev (seen ++ [ev])) by (apply in_or_app; simpl; auto).
  assert (Hpipe' : get_res st = Piped -> In (Response 200) (seen ++ [ev]))
    by (intros H; apply in_or_app; auto).
  split; [|split; [|split]].
  - rewrite Hst. unfold get_run. rewrite fold_left_app. reflexivity.
  - intros H. destruct (get_handle_piped st ev H) as [Hq | ->]; auto.
  - intros reason H. destruct (get_promise st) as [|v|r] eqn:Hp.
    + destruct (get_handle_rejects st ev reason Hp H)
        as [(err & -> & ->)|[(code & -> & H2 & H4 & ->)|(err & Hr & -> & He)]].
      * left. exists err. auto.
      * right. left. exists code. auto.
      * right. right. exists err. split; [reflexivity|]. split; [auto|].
        destruct He as [-> | [-> | [-> Hj]]]; auto.
        right. right. exists seen, []. rewrite <- Hst. auto.
    + rewrite get_handle_settled, Hp in H by (rewrite Hp; discriminate).
      discriminate.
    + rewrite get_handle_settled, Hp in H by (rewrite Hp; discriminate).
      injection H as <-. apply get_rejection_cause_more, Hrej. reflexivity.
  - intros value H. destruct (get_promise st) as [|v|r] eqn:Hp.
    + destruct (get_handle_fulfils st ev value Hp H)
        as [(-> & ->)|(Hr & -> & Hj)].
      * left. auto.
      * right. split; [auto|]. split; [exact Hlast|].
        exists (get_data st). exact Hj.
    + rewrite get_handle_settled, Hp in H by (rewrite Hp; discriminate).
      injection H as <-. apply get_fulfilment_cause_more, Hful. reflexivity.
    + rewrite get_handle_settled, Hp in H by (rewrite Hp; discriminate).
      discriminate.
Qed.

Lemma get_invariant_run (events seen : list Event) (st : GetState) :
  get_invariant seen st ->
  get_invariant (seen ++ events) (fold_left get_handle events st).
Proof.
  revert seen st. induction events as [|ev events IH]; intros seen st H.
  - rewrite app_nil_r. exact H.
  - cbn [fold_left].
    replace (seen ++ ev :: events) with ((seen ++ [ev]) ++ events)
      by (rewrite <- app_assoc; reflexivity).
    apply IH, get_invariant_step, H.
Qed.

Lemma get_invariant_events (events : list Event) :
  get_invariant events (get_run events).
Proof.
  apply (get_invariant_run events [] get_start).
  split; [reflexivity|]. repeat split; cbn; discriminate.
Qed.

(** X3: Every rejection of [get] has one of three causes, and the error
    tells which: a [NetworkError] comes from an ['error'] of the request
    and carries its message and code; an [HttpError] comes from a
    response whose status is neither 200 nor 404 and carries that
    status; any other error comes after a response of status 200, and is
    the error emitted by the gunzip stream or by the response, or the
    error [JSON.parse] threw, at an end of the gunzip stream, on the
    text accumulated from the events before it. *)
Theorem get_rejection_origin (this : HttpStore) (key : Buffer)
  (events : list Event) (reason : JsError) :
  snd (get this key events) = Rejected reason ->
  get_rejection_cause events reason.
Proof.
  unfold get. cbn [snd].
  destruct (get_invariant_events events) as (_ & _ & H & _). apply H.
Qed.

(** X4: [get] is fulfilled only with [null] after a response of status 404,
    or with a value returned by [JSON.parse] after a response of status
    200 and the end of the gunzip stream: no text is parsed before the
    stream has ended, and nothing is fulfilled without a response. *)
Theorem get_fulfilment_origin (this : HttpStore) (key : Buffer)
  (events : list Event) (value : JSValue) :
  snd (get this key events) = Fulfilled value ->
  get_fulfilment_cause events value.
Proof.
  unfold get. cbn [snd].
  destruct (get_invariant_events events) as (_ & _ & _ & H). apply H.
Qed.

(** ** [set]: nothing is settled without a response *)

Lemma set_invariant_step (seen : list Event) (st : SetState) (ev : Event) :
  set_invariant seen st -> set_invariant (seen ++ [ev]) (set_handle st ev).
Proof.
  intros (Hres & Hset & Hend).
  assert (Hlast : In ev (seen ++ [ev])) by (apply in_or_app; simpl; auto).
  assert (Hres' : set_res st = Resumed ->
                  exists code, In (Response code) (seen ++ [ev])).
  { intros H. destruct (Hres H) as (code & Hc). exists code.
    apply in_or_app. auto. }
  assert (Hend' : set_promise st = Fulfilled tt -> In ResEnd (seen ++ [ev])).
  { intros H. apply in_or_app. auto. }
  unfold set_handle.
  destruct ev as [err|code|chunk|err| |chunk|err| ];
    destruct (set_res st) eqn:Hr; cbn [set_res set_promise];
    repeat split; rewrite ?Hr; auto; try discriminate.
  all: try (intros _; exists code; exact Hlast).
  all: try (intros H; apply Hset in H; discriminate).
  all: try (intros _; exact Hlast).
  all: cbn [set_promise]; destruct (set_promise st) as [|[]|r] eqn:Hp;
    cbn [reject resolve]; try discriminate; intros _;
    try exact Hlast; apply Hend'; reflexivity.
Qed.

Lemma set_invariant_run (events seen : list Event) (st : SetState) :
  set_invariant seen st ->
  set_invariant (seen ++ events) (fold_left set_handle events st).
Proof.
  revert seen st. induction events as [|ev events IH]; intros seen st H.
  - rewrite app_nil_r. exact H.
  - cbn [fold_left].
    replace (seen ++ ev :: events) with ((seen ++ [ev]) ++ events)
      by (rewrite <- app_assoc; reflexivity).
    apply IH, set_invariant_step, H.
Qed.

(** X5: The promise of [set] is settled only once the response callback has
    run, and fulfilled only once the response has ended.  So an
    ['error'] of the request, to which [set] does not listen, leaves the
    promise pending: [set] reports no failure of the transport. *)
Theorem set_settles_after_response (this : HttpStore) (key : Buffer)
  (value : JSValue) (events : list Event) :
  snd (set this key value events) <> Pending ->
  (exists code, In (Response code) events)
  /\ (snd (set this key value events) = Fulfilled tt -> In ResEnd events).
Proof.
  unfold set. cbn [snd]. intros H.
  destruct (set_invariant_run events [] set_start) as (Hres & Hset & Hend).
  { repeat split; cbn; try discriminate. intros H'. contradiction. }
  split; [apply Hres, Hset, H|exact Hend].
Qed.

End Traces.

Section Construction.

Context {runtime : NodeRuntime}.

(** ** The constructor: pools and timeout *)

Lemma constructor_inr_config (options : Options) (this : HttpStore) :
  constructor options = inr this ->
  let config := {| agent_family := family options;
                   keepAlive := true;
                   keepAliveMsecs := timeout_or_default (timeout options);
                   maxSockets := 64;
                   maxFreeSockets := 64 |} in
  _timeout this = timeout_or_default (timeout options)
  /\ agent_config (_getAgent this) = config
  /\ agent_config (_setAgent this) = config.
Proof.
  unfold constructor.
  destruct (url_parse (endpoint options)) as [thrown|uri]; [discriminate|].
  destruct (falsy (hostname uri) || falsy (pathname uri)); [discriminate|].
  destruct (hostname uri), (pathname uri); try discriminate.
  intros [= <-]. cbn. auto.
Qed.

Lemma timeout_or_default_truthy (t : option number) :
  number_falsy (timeout_or_default t) = false.
Proof.
  destruct t as [n|]; [|reflexivity]. unfold timeout_or_default.
  destruct (number_falsy n) eqn:H; [reflexivity|exact H].
Qed.

(** X6: The two pools of a constructed store are distinct agents with one
    configuration: keep-alive on, at most 64 sockets and 64 free
    sockets, the address family of the options, and a keep-alive delay
    equal to the timeout of the store. *)
Theorem constructor_pools (options : Options) (this : HttpStore) :
  constructor options = inr this ->
  agent_config (_getAgent this) = agent_config (_setAgent this)
  /\ keepAlive (agent_config (_getAgent this)) = true
  /\ maxSockets (agent_config (_getAgent this)) = 64%Z
  /\ maxFreeSockets (agent_config (_getAgent this)) = 64%Z
  /\ keepAliveMsecs (agent_config (_getAgent this)) = _timeout this
  /\ agent_family (agent_config (_getAgent this)) = family options.
Proof.
  intros H. destruct (constructor_inr_config _ _ H) as (Ht & Hg & Hs).
  rewrite Hg, Hs, Ht. cbn. auto 10.
Qed.

(** X7: The timeout of a constructed store is never 0 nor [NaN]: it is the
    timeout of the options when that is a number other than 0 and [NaN],
    and 5000 otherwise; every request carries it. *)
Theorem constructor_timeout (options : Options) (this : HttpStore)
  (key : Buffer) (value : JSValue) :
  constructor options = inr this ->
  number_falsy (_timeout this) = false
  /\ (_timeout this = Num 5000 \/ timeout options = Some (_timeout this))
  /\ (forall n, timeout options = Some n -> number_falsy n = false ->
                _timeout this = n)
  /\ (timeout options = None -> _timeout this = Num 5000)
  /\ opt_timeout (req_options (get_request this key)) = _timeout this
  /\ opt_timeout (req_options (set_request this key value)) = _timeout this.
Proof.
  intros H. destruct (constructor_inr_config _ _ H) as (Ht & _ & _).
  rewrite Ht. repeat split.
  - apply timeout_or_default_truthy.
  - destruct (timeout options) as [n|]; cbn; auto.
    destruct (number_falsy n); auto.
  - intros n -> Hn. cbn. rewrite Hn. reflexivity.
  - intros ->. reflexivity.
  - cbn. exact Ht.
  - cbn. exact Ht.
Qed.

(** ** The constructor: an explicit port *)

Lemma all_digits_string_of_uint (d : Decimal.uint) :
  all_digits (NilEmpty.string_of_uint d) = true.
Proof.
  unfold all_digits. induction d; cbn; auto.
Qed.

(** An integer below [2 ^ 53] is a double. *)
Lemma round_to_double_exact (z : Z) :
  (0 <= z < 2 ^ 53)%Z -> round_to_double z = Num z.
Proof.
  intros [H0 H]. unfold round_to_double.
  destruct (Z.leb_spec (Z.log2 z + 1) 53) as [_|Hb]; [reflexivity|].
  destruct (Z.eq_dec z 0) as [->|Hz]; [discriminate Hb|].
  apply Z.log2_lt_pow2 in H; lia.
Qed.

(** From [2 ^ 53] on, not every integer is one: [2 ^ 53 + 1] is rounded
    to [2 ^ 53]. *)
Lemma string_to_number_rounds :
  string_to_number "9007199254740993" = Num 9007199254740992.
Proof. reflexivity. Qed.

Lemma string_to_number_decimal (z : Z) :
  (0 <= z)%Z -> string_to_number (Z_to_string z) = round_to_double z.
Proof.
  intros Hz. destruct z as [|p|p]; [reflexivity| |lia].
  unfold Z_to_string, string_to_number. cbn [Z.to_int NilZero.string_of_int].
  assert (E : NilZero.string_of_uint (Pos.to_uint p)
              = NilEmpty.string_of_uint (Pos.to_uint p)).
  { pose proof (DecimalPos.Unsigned.to_uint_nonnil p) as Hn.
    destruct (Pos.to_uint p); [contradiction|reflexivity..]. }
  rewrite E, all_digits_string_of_uint, NilEmpty.usu.
  unfold Z.of_uint. rewrite DecimalPos.Unsigned.of_to. reflexivity.
Qed.

(** X8: When the parsed endpoint has a port written as the decimal
    numeral of [z], with [z] below [2 ^ 53], the port of the store, and
    of every request, is the number [z]. *)
Theorem explicit_port_is_kept (options : Options) (uri : Url)
  (this : HttpStore) (z : Z) (key : Buffer) (value : JSValue) :
  (0 <= z < 2 ^ 53)%Z ->
  url_parse (endpoint options) = inr uri ->
  port uri = Some (Z_to_string z) ->
  constructor options = inr this ->
  _port this = Num z
  /\ opt_port (req_options (get_request this key)) = Num z
  /\ opt_port (req_options (set_request this key value)) = Num z.
Proof.
  intros Hz Hu Hp H.
  destruct (constructor_inr _ _ H)
    as (uri' & host & path & Hu' & _ & _ & _ & _ & _ & _ & Hport & _).
  rewrite Hu in Hu'. injection Hu' as <-.
  rewrite Hp in Hport. cbn [unary_plus] in Hport.
  rewrite string_to_number_decimal, round_to_double_exact in Hport by lia.
  cbn. auto.
Qed.

(** ** Keys and paths *)

Lemma append_inj_l (p a b : string) : p ++ a = p ++ b -> a = b.
Proof.
  induction p as [|c p IH]; cbn; [auto|]. intros [= H]. auto.
Qed.

(** X9: On one store, two requests have the same path only for the same
    key: a [get] reads the entry a [set] wrote only if their keys are
    the same octets. *)
Theorem request_path_injective (this : HttpStore) (k1 k2 : Buffer)
  (value : JSValue) :
  opt_path (req_options (get_request this k1))
  = opt_path (req_options (set_request this k2 value)) ->
  k1 = k2.
Proof.
  cbn. intros H. apply append_inj_l in H. apply (append_inj_l "/") in H.
  apply Buffer_toString_hex_inj, H.
Qed.

End Construction.

(** ** [set] then [get] on ASCII text *)

Section AsciiRoundTrip.

Context {runtime : NodeRuntime} {laws : RuntimeLaws runtime}.

Local Open Scope list_scope.

Lemma utf8_encode_ascii (s : text) :
  forallb is_ascii s = true -> utf8_encode s = map byte_of_N s.
Proof.
  induction s as [|c s IH]; [reflexivity|].
  cbn [forallb]. intros H. apply andb_prop in H as [Hc Hs].
  cbn [utf8_encode flat_map map]. fold (utf8_encode s). rewrite (IH Hs).
  unfold utf8_encode_char. unfold is_ascii in Hc. rewrite Hc. reflexivity.
Qed.

Lemma map_byte_of_N_app (s : text) (pre post : Buffer) :
  pre ++ post = map byte_of_N s ->
  exists s1 s2,
    s = s1 ++ s2 /\ pre = map byte_of_N s1 /\ post = map byte_of_N s2.
Proof.
  intros H.
  exists (firstn (List.length pre) s), (skipn (List.length pre) s).
  rewrite firstn_skipn. split; [reflexivity|].
  rewrite <- firstn_map, <- skipn_map, <- H.
  rewrite firstn_app, Nat.sub_diag, firstn_all, firstn_O, app_nil_r.
  rewrite skipn_app, Nat.sub_diag, skipn_all, skipn_O. auto.
Qed.

Lemma Buffer_toString_ascii (s : text) :
  forallb is_ascii s = true -> Buffer_toString (map byte_of_N s) = s.
Proof.
  intros H. rewrite <- utf8_encode_ascii by exact H.
  apply Buffer_toString_utf8_encode.
  rewrite forallb_forall in *. intros c Hc. specialize (H c Hc).
  unfold is_ascii in H. unfold is_scalar. apply N.ltb_lt in H.
  apply andb_true_intro. split.
  - apply N.ltb_lt. lia.
  - destruct (N.leb_spec 55296 c); [lia|reflexivity].
Qed.

(** However an ASCII text is cut into chunks, decoding the chunks one by
    one gives the text. *)
Lemma toString_ascii_chunks (chunks : list Buffer) (s : text) :
  forallb is_ascii s = true ->
  List.concat chunks = map byte_of_N s ->
  flat_map Buffer_toString chunks = s.
Proof.
  revert s. induction chunks as [|chunk chunks IH]; intros s Hs H.
  - cbn in *. destruct s; [reflexivity|discriminate].
  - cbn [List.concat flat_map] in *.
    destruct (map_byte_of_N_app s chunk (List.concat chunks) H)
      as (s1 & s2 & -> & -> & H2).
    rewrite forallb_app in Hs. apply andb_prop in Hs as [Hs1 Hs2].
    rewrite Buffer_toString_ascii by exact Hs1.
    rewrite (IH s2 Hs2 H2). reflexivity.
Qed.

(** X10: When the JSON text of the value is ASCII and is read back by
    [JSON.parse] as the value, [get] after [set] yields the value,
    wherever the gunzip stream cuts its chunks. *)
Theorem get_after_set_ascii (this : HttpStore) (key : Buffer)
  (value : JSValue) (chunks : list Buffer) :
  forallb is_ascii (stringify_or_null value) = true ->
  JSON_parse (stringify_or_null value) = inr value ->
  List.concat chunks = utf8_encode (stringify_or_null value) ->
  gunzip_events (req_body (set_request this key value))
                (map GunzipData chunks ++ [GunzipEnd])
  /\ snd (get this key (Response 200 :: map GunzipData chunks ++ [GunzipEnd]))
     = Fulfilled value.
Proof.
  intros Hascii Hparse Hchunks. split.
  - apply (gunzip_events_end _ (utf8_encode (stringify_or_null value))).
    + apply gunzip_gzip.
    + exact Hchunks.
  - unfold get. cbn [snd]. apply get_parses_at_end.
    rewrite (toString_ascii_chunks chunks (stringify_or_null value));
      [exact Hparse|exact Hascii|].
    rewrite Hchunks. apply utf8_encode_ascii, Hascii.
Qed.

(** X13: A value for which [JSON.stringify] gives [undefined] (or the empty
    string) is stored as the text [null]: [get] after [set] then yields
    [null], not the value, wherever the chunks are cut. *)
Theorem get_after_set_undefined (this : HttpStore) (key : Buffer)
  (value : JSValue) (chunks : list Buffer) :
  JSON_stringify value = None \/ JSON_stringify value = Some [] ->
  JSON_parse (text_of_string "null") = inr VNull ->
  List.concat chunks = [x6e; x75; x6c; x6c] ->
  gunzip_events (req_body (set_request this key value))
                (map GunzipData chunks ++ [GunzipEnd])
  /\ snd (get this key (Response 200 :: map GunzipData chunks ++ [GunzipEnd]))
     = Fulfilled VNull.
Proof.
  intros Hvalue Hparse Hchunks.
  assert (Htext : stringify_or_null value = text_of_string "null")
    by (unfold stringify_or_null; destruct Hvalue as [-> | ->]; reflexivity).
  split.
  - apply (gunzip_events_end _ [x6e; x75; x6c; x6c]); [|exact Hchunks].
    unfold set_request. cbn [req_body]. rewrite Htext. apply gunzip_gzip.
  - unfold get. cbn [snd]. apply get_parses_at_end.
    rewrite (toString_ascii_chunks chunks (text_of_string "null"));
      [exact Hparse|reflexivity|exact Hchunks].
Qed.

End AsciiRoundTrip.

(** ** The further properties at work on the small runtime *)

(** X2 on the small runtime. *)
Lemma get_resolves_at_end_witness :
  JSON_parse (NodeRuntime := sample_runtime)
             (flat_map Buffer_toString [[x5b; x31]; [x2c; x32; x5d]])
  = inr (VArray [VNumber (Num 1); VNumber (Num 2)])
  /\ snd (get (runtime := sample_runtime) sample_store [x0a; xff]
              [Response 200; GunzipData [x5b; x31]])
     = Pending
  /\ snd (get (runtime := sample_runtime) sample_store [x0a; xff]
              [Response 200; GunzipData [x5b; x31];
               GunzipData [x2c; x32; x5d]; GunzipEnd; ResEnd])
     = Fulfilled (VArray [VNumber (Num 1); VNumber (Num 2)]).
Proof.
  split; [reflexivity|].
  destruct (get_resolves_at_end (runtime := sample_runtime) sample_store
              [x0a; xff] [[x5b; x31]; [x2c; x32; x5d]]
              (VArray [VNumber (Num 1); VNumber (Num 2)]) [ResEnd] eq_refl)
    as [Hpending Hend].
  split; [exact (Hpending 1%nat)|exact Hend].
Defined.

(** X3 on the small runtime. *)
Lemma get_rejection_origin_witness :
  (snd (get (runtime := sample_runtime) sample_store [x0a; xff]
            [Response 503; ResEnd])
   = Rejected (HttpError "HTTP error: 503" 503)
   /\ get_rejection_cause (runtime := sample_runtime) [Response 503; ResEnd]
                          (HttpError "HTTP error: 503" 503))
  /\ (snd (get (runtime := sample_runtime) sample_store [x0a; xff]
               [Response 200; GunzipData [x7b]; GunzipEnd])
      = Rejected (Native (SyntaxError "Unexpected token in JSON"))
      /\ get_rejection_cause (runtime := sample_runtime)
           [Response 200; GunzipData [x7b]; GunzipEnd]
           (Native (SyntaxError "Unexpected token in JSON"))).
Proof.
  split; (split; [reflexivity|]);
    apply (get_rejection_origin (runtime := sample_runtime) sample_store
             [x0a; xff]);
    reflexivity.
Defined.

(** X4 on the small runtime. *)
Lemma get_fulfilment_origin_witness :
  snd (get (runtime := sample_runtime) sample_store [x0a; xff]
           [Response 404; ResEnd])
  = Fulfilled VNull
  /\ get_fulfilment_cause (runtime := sample_runtime)
                          [Response 404; ResEnd] VNull.
Proof.
  split; [reflexivity|].
  apply (get_fulfilment_origin (runtime := sample_runtime) sample_store
           [x0a; xff]).
  reflexivity.
Defined.

(** X5 on the small runtime. *)
Lemma set_settles_after_response_witness :
  snd (set (runtime := sample_runtime) sample_store [x0a; xff]
           sample_json_value [Response 201; ResEnd])
  <> Pending
  /\ (exists code, In (Response code) [Response 201; ResEnd])
  /\ In ResEnd [Response 201; ResEnd].
Proof.
  assert (H : snd (set (runtime := sample_runtime) sample_store [x0a; xff]
                       sample_json_value [Response 201; ResEnd])
              <> Pending) by discriminate.
  split; [exact H|].
  destruct (set_settles_after_response (runtime := sample_runtime)
              sample_store [x0a; xff] sample_json_value
              [Response 201; ResEnd] H) as [Hresponse Hend].
  split; [exact Hresponse|apply Hend; reflexivity].
Defined.

(** X6 on the small runtime. *)
Lemma constructor_pools_witness :
  constructor (runtime := sample_runtime) sample_options = inr sample_store
  /\ agent_config (_getAgent sample_store)
     = agent_config (_setAgent sample_store)
  /\ keepAlive (agent_config (_getAgent sample_store)) = true
  /\ maxSockets (agent_config (_getAgent sample_store)) = 64%Z
  /\ maxFreeSockets (agent_config (_getAgent sample_store)) = 64%Z
  /\ keepAliveMsecs (agent_config (_getAgent sample_store))
     = _timeout sample_store
  /\ agent_family (agent_config (_getAgent sample_store))
     = family sample_options.
Proof.
  split; [reflexivity|].
  apply (constructor_pools (runtime := sample_runtime) sample_options).
  reflexivity.
Defined.

(** X7 on the small runtime. *)
Lemma constructor_timeout_witness :
  exists this,
    constructor (runtime := sample_runtime) sample_options_no_port = inr this
    /\ _timeout this = Num 3000
    /\ number_falsy (_timeout this) = false.
Proof.
  eexists. split; [reflexivity|].
  destruct (constructor_timeout (runtime := sample_runtime)
              sample_options_no_port _ [x0a; xff] VNull eq_refl)
    as (Htruthy & _ & Hgiven & _).
  split; [apply (Hgiven (Num 3000)); reflexivity|exact Htruthy].
Defined.

(** X8 on the small runtime. *)
Lemma explicit_port_is_kept_witness :
  (0 <= 8080 < 2 ^ 53)%Z
  /\ port {| protocol := Some "http:"; hostname := Some "localhost";
             pathname := Some "/cache"; port := Some "8080" |}
     = Some (Z_to_string 8080)
  /\ constructor (runtime := sample_runtime) sample_options = inr sample_store
  /\ _port sample_store = Num 8080
  /\ opt_port (req_options (get_request sample_store [x0a; xff])) = Num 8080
  /\ opt_port (req_options
                 (set_request (runtime := sample_runtime) sample_store
                              [x0a; xff] VNull))
     = Num 8080.
Proof.
  split; [split; [discriminate|reflexivity]|].
  split; [reflexivity|]. split; [reflexivity|].
  apply (explicit_port_is_kept (runtime := sample_runtime) sample_options
           {| protocol := Some "http:"; hostname := Some "localhost";
              pathname := Some "/cache"; port := Some "8080" |}
           sample_store 8080 [x0a; xff] VNull);
    [split; [discriminate|reflexivity]|reflexivity..].
Defined.

(** X9 on the small runtime. *)
Lemma request_path_injective_witness :
  opt_path (req_options (get_request sample_store [x0a; xff]))
  = opt_path (req_options
                (set_request (runtime := sample_runtime) sample_store
                             [x0a; xff] VNull))
  /\ [x0a; xff] = [x0a; xff].
Proof.
  split; [reflexivity|].
  apply (request_path_injective (runtime := sample_runtime) sample_store
           [x0a; xff] [x0a; xff] VNull).
  reflexivity.
Defined.

(** X10 on the small runtime. *)
Lemma get_after_set_ascii_witness :
  forallb is_ascii
          (stringify_or_null (runtime := sample_runtime) sample_json_value)
  = true
  /\ JSON_parse (NodeRuntime := sample_runtime)
                (stringify_or_null (runtime := sample_runtime)
                                   sample_json_value)
     = inr sample_json_value
  /\ List.concat sample_json_chunks
     = utf8_encode (stringify_or_null (runtime := sample_runtime)
                                      sample_json_value)
  /\ snd (get (runtime := sample_runtime) sample_store [x0a; xff]
              (Response 200 :: map GunzipData sample_json_chunks
                 ++ [GunzipEnd])%list)
     = Fulfilled sample_json_value.
Proof.
  split; [reflexivity|]. split; [reflexivity|]. split; [reflexivity|].
  apply (get_after_set_ascii (runtime := sample_runtime)
           (laws := sample_runtime_laws) sample_store [x0a; xff]
           sample_json_value sample_json_chunks); reflexivity.
Defined.

(** X11 on the small runtime. *)
Lemma get_after_set_whole_characters_witness :
  List.concat [[34%N; 233%N]; [8364%N; 34%N]]
  = stringify_or_null (runtime := sample_runtime) sample_text_value
  /\ forallb is_scalar
             (stringify_or_null (runtime := sample_runtime) sample_text_value)
     = true
  /\ JSON_parse (NodeRuntime := sample_runtime)
                (stringify_or_null (runtime := sample_runtime)
                                   sample_text_value)
     = inr sample_text_value
  /\ snd (get (runtime := sample_runtime) sample_store [x0a; xff]
              [Response 200; GunzipData [x22; xc3; xa9];
               GunzipData [xe2; x82; xac; x22]; GunzipEnd])
     = Fulfilled sample_text_value.
Proof.
  split; [reflexivity|]. split; [reflexivity|]. split; [reflexivity|].
  apply (get_after_set_whole_characters (runtime := sample_runtime)
           (laws := sample_runtime_laws) sample_store [x0a; xff]
           sample_text_value [[34%N; 233%N]; [8364%N; 34%N]]); reflexivity.
Defined.

(** X12 on the small runtime. *)
Lemma get_after_set_split_anywhere_witness :
  forallb plain_char [99%N; 97%N; 102%N] = true
  /\ forallb plain_char [33%N] = true
  /\ snd (get (runtime := sample_runtime) sample_store [x0a; xff]
              [Response 200; GunzipData [x22; x63; x61; x66; xc3];
               GunzipData [xa9; x21; x22]; GunzipEnd])
     = Fulfilled (VString [99%N; 97%N; 102%N; 65533%N; 65533%N; 33%N]).
Proof.
  split; [reflexivity|]. split; [reflexivity|].
  apply (get_after_set_split_anywhere (runtime := sample_runtime)
           (laws := sample_runtime_laws) sample_store [x0a; xff]
           [99%N; 97%N; 102%N] [33%N]); reflexivity.
Defined.

(** X13 on the small runtime. *)
Lemma get_after_set_undefined_witness :
  JSON_stringify (NodeRuntime := sample_runtime) VUndefined = None
  /\ JSON_parse (NodeRuntime := sample_runtime) (text_of_string "null")
     = inr VNull
  /\ req_body (set_request (runtime := sample_runtime) sample_store
                           [x0a; xff] VUndefined)
     = [x1f; x8b; x6e; x75; x6c; x6c]
  /\ snd (get (runtime := sample_runtime) sample_store [x0a; xff]
              [Response 200; GunzipData [x6e; x75]; GunzipData [x6c; x6c];
               GunzipEnd])
     = Fulfilled VNull.
Proof.
  split; [reflexivity|]. split; [reflexivity|]. split; [reflexivity|].
  apply (get_after_set_undefined (runtime := sample_runtime)
           (laws := sample_runtime_laws) sample_store [x0a; xff] VUndefined
           [[x6e; x75]; [x6c; x6c]]);
    [left; reflexivity|reflexivity|reflexivity].
Defined.
